(** * Arbitrage detection: opportunity analysis and lifecycle

    A shallow embedding of the opportunity engine of the backend
    ([app/services/arbitrage_service.py], [app/api/v1/opportunities.py],
    [app/schemas/opportunity.py], the SQLAlchemy models they use,
    [app/core/database.py] and [app/scrapers/base_scraper.py]), followed by
    the properties established about it.

    Conventions of the embedding.
    - A [Decimal] is the rational it denotes ([Q]); equalities between
      amounts are stated with [==].  Every arithmetic operation on
      [Decimal]s rounds its exact result to the 28 significant digits of the
      default context, ties to even ([Decimal_round]); comparisons are exact.
    - A Python [float] is the rational it denotes as well: a binary64 number.
      Every floating-point operation is the exact operation followed by the
      rounding of IEEE 754 to the nearest binary64 number, ties to even
      ([round_binary64]); a literal such as [0.3] denotes the binary64
      number nearest to it.  Numbers beyond the largest finite float stand
      for the infinities; the code at hand only compares them.
      [binary64_agrees] checks the rounding against the primitive floats of
      the kernel on the numbers the scorer meets.  Where the interpreters
      differ (the built-in [sum]), the code takes the interpreter as its
      first argument.
    - Timestamps are integers (microseconds since the epoch, UTC) and UUIDs
      are natural numbers.
    - A database session is the content of the two tables the analyzer
      reads, each in the order in which its rows were inserted, together
      with the failure (if any) each statement runs into when it reaches
      the server.
    - Python exceptions are the [Raise] outcome of a small error monad;
      [try ... except Exception] is [try_except].  Only subclasses of
      [Exception] are represented. *)

From Stdlib Require Import QArith Qpower Qround Qabs Lqa ZArith Ascii String List Permutation.
From Stdlib Require Import PrimFloat FloatOps SpecFloat.
From stdpp Require Import gmap strings.
Import ListNotations.

Open Scope Q_scope.

(** ** Numbers *)

Definition Qltb (x y : Q) : bool := negb (Qle_bool y x).

(** The nearest integer, ties going to the even one. *)
Definition round_half_even (x : Q) : Z :=
  let n := Qfloor x in
  match Qcompare (x - inject_Z n) (1 # 2) with
  | Lt => n
  | Gt => (n + 1)%Z
  | Eq => if Z.even n then n else (n + 1)%Z
  end.

(** The multiple of [unit] nearest to [q], ties going to the even
    multiple. *)
Definition round_to_multiple (unit q : Q) : Q :=
  inject_Z (round_half_even (q / unit)) * unit.

(** [floor(log10 n)] for [n >= 1]: the number of digits of [n], less one. *)
Fixpoint Zlog10_aux (fuel : nat) (n : Z) : Z :=
  match fuel with
  | O => 0%Z
  | S fuel' => if (n <? 10)%Z then 0%Z else (1 + Zlog10_aux fuel' (n / 10))%Z
  end.

Definition Zlog10 (n : Z) : Z := Zlog10_aux (S (Z.to_nat (Z.log2 n))) n.

(** [floor(log_b |q|)] for [q <> 0], from the logarithms of the numerator
    and of the denominator: their difference is this number or exceeds it
    by one. *)
Definition Qlog (b : Z) (Zlog : Z -> Z) (q : Q) : Z :=
  let e := (Zlog (Z.abs (Qnum q)) - Zlog (Zpos (Qden q)))%Z in
  if Qle_bool (inject_Z b ^ e) (Qabs q) then e else (e - 1)%Z.

Definition Qlog2 : Q -> Z := Qlog 2 Z.log2.
Definition Qlog10 : Q -> Z := Qlog 10 Zlog10.

(** *** [Decimal] *)

(** The rounding of the default context: 28 significant digits,
    [ROUND_HALF_EVEN]. *)
Definition Decimal_round (q : Q) : Q :=
  if Qeq_bool q 0 then 0
  else round_to_multiple (10 ^ (Qlog10 q - 27)) q.

Definition Decimal_add (a b : Q) : Q := Decimal_round (a + b).
Definition Decimal_sub (a b : Q) : Q := Decimal_round (a - b).
Definition Decimal_mul (a b : Q) : Q := Decimal_round (a * b).

(** [bool(d)] of a [Decimal]: zero is falsy. *)
Definition Decimal_bool (d : Q) : bool := negb (Qeq_bool d 0).

(** [Decimal(str(x))] of an integer, of a [Decimal] or of a float: the
    number that the digits of [str(x)] denote.  For a float these are the
    shortest digits that read back as the float. *)
Definition Decimal_of_str (x : Q) : Q := x.

(** *** [float] *)

(** The rounding of binary64: 53 significant bits, exponents from -1022
    (below, the spacing of the subnormal numbers), ties to even. *)
Definition round_binary64 (q : Q) : Q :=
  if Qeq_bool q 0 then 0
  else round_to_multiple (2 ^ (Z.max (Qlog2 q) (-1022) - 52)) q.

Definition float_add (x y : Q) : Q := round_binary64 (x + y).
Definition float_sub (x y : Q) : Q := round_binary64 (x - y).
Definition float_mul (x y : Q) : Q := round_binary64 (x * y).
(** [x / y] for a divisor that is not zero. *)
Definition float_div (x y : Q) : Q := round_binary64 (x / y).

(** A float literal, and [float(d)] of a [Decimal]: the nearest binary64
    number. *)
Definition float_literal (q : Q) : Q := round_binary64 q.
Definition float_of_Decimal (d : Q) : Q := round_binary64 d.

(** [round(x, ndigits)] of a float [x], read as the decimal number with
    [ndigits] places that it stands for: the one nearest to the exact value
    of [x], ties to even.  ([round] returns the float nearest to that
    decimal number, and [str] prints that float with the digits of the
    decimal number.) *)
Definition py_round (x : Q) (ndigits : Z) : Q :=
  inject_Z (round_half_even (x * 10 ^ ndigits)) / 10 ^ ndigits.

(** [max(0, x)]. *)
Definition py_max0 (x : Q) : Q := if Qltb 0 x then x else 0.

(** *** The built-in [sum] on floats

    [sum] adds the items to its total one after the other.  Up to Python
    3.11 that is all.  From Python 3.12 on it also collects, as Neumaier's
    algorithm does, what each addition rounds away, and adds this
    compensation to the total at the end.  Both interpreters are
    represented; the state of a sum is its total and its compensation. *)
Inductive interpreter : Type :=
| before_3_12
| since_3_12.

Definition sum_step (python : interpreter) (state : Q * Q) (x : Q) : Q * Q :=
  let '(f_result, c) := state in
  let t := float_add f_result x in
  match python with
  | before_3_12 => (t, c)
  | since_3_12 =>
      (t,
       if Qle_bool (Qabs x) (Qabs f_result)
       then float_add c (float_add (float_sub f_result t) x)
       else float_add c (float_add (float_sub x t) f_result))
  end.

Definition sum_result (state : Q * Q) : Q :=
  let '(f_result, c) := state in
  if Qeq_bool c 0 then f_result else float_add f_result c.

(** ** Exceptions *)

(** The exceptions that the code at hand can meet; all of them are
    subclasses of [Exception]. *)
Inductive exn : Type :=
| SQLAlchemyError (msg : string)
| InvalidRequestError (msg : string)
| KeyError (key : string)
| DivisionByZero
| InvalidOperation
| TypeError (msg : string)
| ValueError (msg : string).

Inductive result (A : Type) : Type :=
| Return (a : A)
| Raise (e : exn).
Arguments Return {A} a.
Arguments Raise {A} e.

#[global] Instance result_ret : MRet result := fun A a => Return a.
#[global] Instance result_bind : MBind result := fun A B k c =>
  match c with
  | Return a => k a
  | Raise e => Raise e
  end.

(** [try: c  except Exception as e: h e]. *)
Definition try_except {A : Type} (c : result A) (h : exn -> result A) : result A :=
  match c with
  | Return a => Return a
  | Raise e => h e
  end.

(** [a / b] on [Decimal]s. *)
Definition Decimal_div (a b : Q) : result Q :=
  if Qeq_bool b 0
  then (if Qeq_bool a 0 then Raise InvalidOperation else Raise DivisionByZero)
  else Return (Decimal_round (a / b)).

(** ** Data model *)

Definition UUID := N.
Definition datetime := Z.

(** [timedelta(hours=h)] in microseconds. *)
Definition timedelta_hours (h : Z) : Z := (h * 3600 * 1000000)%Z.

Module Product.
Record t : Type := mk {
  id : UUID;
  name : string;
  product_type : string;
  category : string;
  is_active : string
}.
End Product.

Module PriceHistory.
Record t : Type := mk {
  id : UUID;
  product_id : UUID;
  price : Q;
  source : string;
  seller_count : option Z;
  confidence_level : string;
  recorded_at : datetime;
  created_at : datetime
}.
End PriceHistory.

Module ProductSingle.
Record t : Type := mk {
  id : UUID;
  sealed_product_id : UUID;
  single_product_id : UUID;
  quantity : Z;
  guaranteed : string
}.
End ProductSingle.

(** A column that is nullable, or filled by a default only when the row is
    written, is an [option]. *)
Module ArbitrageOpportunity.
Record t : Type := mk {
  id : option UUID;
  sealed_product_id : UUID;
  sealed_price : Q;
  singles_value : Q;
  margin_percentage : Q;
  confidence_score : Q;
  risk_level : string;
  seller_count : option Z;
  status : string;
  execution_quantity : option Z;
  execution_notes : option string;
  created_at : option datetime;
  updated_at : option datetime;
  expires_at : option datetime;
  executed_at : option datetime
}.

(** The constructor call of the analyzer: the attributes that are not
    given stay unset until the row is written. *)
Definition init (sealed_product_id : UUID)
    (sealed_price singles_value margin_percentage confidence_score : Q)
    (risk_level : string) (seller_count : option Z) (status : string)
    (expires_at : option datetime) : t :=
  {| id := None;
     sealed_product_id := sealed_product_id;
     sealed_price := sealed_price;
     singles_value := singles_value;
     margin_percentage := margin_percentage;
     confidence_score := confidence_score;
     risk_level := risk_level;
     seller_count := seller_count;
     status := status;
     execution_quantity := None;
     execution_notes := None;
     created_at := None;
     updated_at := None;
     expires_at := expires_at;
     executed_at := None |}.

(** [potential_profit] (a float), [is_active] and [is_high_confidence]. *)
Definition potential_profit (o : t) : Q :=
  let net_singles_value :=
    float_mul (float_of_Decimal (singles_value o)) (float_literal 0.85) in
  float_sub net_singles_value (float_of_Decimal (sealed_price o)).
Definition is_active (o : t) : bool := String.eqb (status o) "active".
Definition is_high_confidence (o : t) : bool :=
  Qle_bool (float_literal 0.8) (float_of_Decimal (confidence_score o)).
End ArbitrageOpportunity.

(** ** Database session *)

Inductive statement : Type :=
| select_latest_price
| select_singles_data.

Record Session : Type := mkSession {
  price_history : list PriceHistory.t;
  product_singles : list ProductSingle.t;
  outage : statement -> option exn
}.

(** Running a statement: the failure it runs into, or its rows. *)
Definition execute {A : Type} (db : Session) (s : statement) (rows : A) : result A :=
  match outage db s with
  | Some e => Raise e
  | None => Return rows
  end.

(** [ORDER BY recorded_at DESC].  The statement names no second key; rows
    with equal timestamps come as the engine finds them, walking the index
    on [recorded_at] that the model declares from its end: the row inserted
    last comes first. *)
Fixpoint insert_recorded_at_desc (r : PriceHistory.t) (l : list PriceHistory.t)
  : list PriceHistory.t :=
  match l with
  | [] => [r]
  | r' :: l' =>
      if (PriceHistory.recorded_at r' <? PriceHistory.recorded_at r)%Z
      then r :: l
      else r' :: insert_recorded_at_desc r l'
  end.

Fixpoint order_by_recorded_at_desc (l : list PriceHistory.t) : list PriceHistory.t :=
  match l with
  | [] => []
  | r :: l' => insert_recorded_at_desc r (order_by_recorded_at_desc l')
  end.

(** [filter(PriceHistory.product_id == product_id)]. *)
Definition filter_product_id (product_id : UUID) (l : list PriceHistory.t)
  : list PriceHistory.t :=
  List.filter (fun r => (PriceHistory.product_id r =? product_id)%N) l.

(** [SELECT max(recorded_at) ... WHERE product_id = :product_id]; NULL on
    no row. *)
Definition max_recorded_at (product_id : UUID) (l : list PriceHistory.t)
  : option datetime :=
  match filter_product_id product_id l with
  | [] => None
  | r :: l' =>
      Some (fold_left Z.max (List.map PriceHistory.recorded_at l')
                      (PriceHistory.recorded_at r))
  end.

(** [recorded_at = (scalar subquery)]; a comparison with NULL selects
    nothing. *)
Definition recorded_at_is (r : PriceHistory.t) (m : option datetime) : bool :=
  match m with
  | Some t => (PriceHistory.recorded_at r =? t)%Z
  | None => false
  end.

(** ** Settings ([app/core/config.py]) *)

Record Settings : Type := mkSettings {
  MIN_MARGIN_THRESHOLD : Q;
  MAX_RISK_LEVEL : string;
  DEFAULT_PRICE_FLOOR : Q
}.

Definition settings : Settings :=
  {| MIN_MARGIN_THRESHOLD := 25.0;
     MAX_RISK_LEVEL := "medium";
     DEFAULT_PRICE_FLOOR := 0.35 |}.

(** ** The analyzer ([app/services/arbitrage_service.py]) *)

(** [confidence_weights] is the dictionary of the weights, as the list of
    its items in insertion order. *)
Record ArbitrageAnalyzer : Type := mkArbitrageAnalyzer {
  db : option Session;
  min_margin_threshold : Q;
  max_seller_threshold : Z;
  confidence_weights : list (string * Q)
}.

(** [ArbitrageAnalyzer.__init__], for the settings in force.  The threshold
    is [Decimal(str(settings.MIN_MARGIN_THRESHOLD))]: the number that the
    digits of the setting denote. *)
Definition ArbitrageAnalyzer_init (cfg : Settings) (db : option Session)
  : ArbitrageAnalyzer :=
  {| db := db;
     min_margin_threshold := Decimal_of_str (MIN_MARGIN_THRESHOLD cfg);
     max_seller_threshold := 15;
     confidence_weights :=
       [("price_stability"%string, float_literal 0.3);
        ("seller_count"%string, float_literal 0.2);
        ("volume_history"%string, float_literal 0.2);
        ("margin_size"%string, float_literal 0.3)] |}.

(** [async with get_db_session() as db]: [get_db_session] is built with
    [contextlib.contextmanager], a synchronous context manager without
    [__aenter__], so entering it with [async with] raises before any session
    is opened (a [TypeError]; an [AttributeError] on older interpreters). *)
Definition async_with_get_db_session {A : Type} (body : Session -> result A)
  : result A :=
  Raise (TypeError "'_GeneratorContextManager' object does not support the asynchronous context manager protocol").

(** The query of [_get_latest_price_with_db]:
    [db.query(PriceHistory.price).filter(...).order_by(recorded_at.desc()).first()]. *)
Definition query_latest_price (db : Session) (product_id : UUID) : result (option Q) :=
  execute db select_latest_price
    (hd_error (List.map PriceHistory.price
       (order_by_recorded_at_desc
          (filter_product_id product_id (price_history db))))).

Definition _get_latest_price_with_db (db : Session) (product_id : UUID)
  : result (option Q) :=
  latest_price ← query_latest_price db product_id;
  mret (match latest_price with
        | Some p => Some (Decimal_of_str p)
        | None => None
        end).

Definition _get_latest_price (self : ArbitrageAnalyzer) (product_id : UUID)
    (product_type : string) : result (option Q) :=
  try_except
    (match db self with
     | Some db => _get_latest_price_with_db db product_id
     | None =>
         async_with_get_db_session
           (fun db => _get_latest_price_with_db db product_id)
     end)
    (fun e => Return None).

(** *** Compiling a scalar subquery

    SQLAlchemy correlates a scalar subquery on its own when the subquery
    has more than one FROM element: each of them that the enclosing SELECT
    has in its FROM list as well is read from the enclosing row and leaves
    the FROM list of the subquery.  A subquery that is left without a FROM
    element is refused with [InvalidRequestError] (the message also prints
    the statement). *)

Inductive table : Type :=
| price_history_table
| product_singles_table.

Definition table_eqb (t t' : table) : bool :=
  match t, t' with
  | price_history_table, price_history_table => true
  | product_singles_table, product_singles_table => true
  | _, _ => false
  end.

Definition auto_correlate (enclosing froms : list table) : result (list table) :=
  if (1 <? length froms)%nat
  then
    match List.filter (fun t => negb (existsb (table_eqb t) enclosing)) froms with
    | [] =>
        Raise (InvalidRequestError "Select statement returned no FROM clauses due to auto-correlation; specify correlate(<tables>) to control correlation manually.")
    | remaining => Return remaining
    end
  else Return froms.

(** The query of [_calculate_singles_value_with_db].  The enclosing SELECT
    reads [product_singles] joined with [price_history].  The scalar
    subquery selects [max(PriceHistory.recorded_at)] where
    [PriceHistory.product_id == ProductSingle.single_product_id]; neither
    entity is aliased and no [correlate] is given, so its FROM elements are
    the same two tables. *)
Definition singles_enclosing_froms : list table :=
  [product_singles_table; price_history_table].
Definition singles_subquery_froms : list table :=
  [price_history_table; product_singles_table].

(** [query.all()]: the session obtains its connection, the statement is
    compiled, and the rows are fetched: one row per pair of the join that
    belongs to the sealed product and whose [recorded_at] equals the value
    of the subquery for its row of [product_singles]. *)
Definition query_singles_data (db : Session) (sealed_product_id : UUID)
  : result (list (Z * Q)) :=
  _ ← execute db select_singles_data tt;
  _ ← auto_correlate singles_enclosing_froms singles_subquery_froms;
  mret
    (flat_map
       (fun ps =>
          List.map (fun ph => (ProductSingle.quantity ps, PriceHistory.price ph))
            (List.filter
               (fun ph =>
                  (ProductSingle.single_product_id ps =? PriceHistory.product_id ph)%N
                  && (ProductSingle.sealed_product_id ps =? sealed_product_id)%N
                  && recorded_at_is ph
                       (max_recorded_at (ProductSingle.single_product_id ps)
                                        (price_history db)))
               (price_history db)))
       (product_singles db)).

Definition _calculate_singles_value_with_db (db : Session) (sealed_product_id : UUID)
  : result (option Q) :=
  singles_data ← query_singles_data db sealed_product_id;
  match singles_data with
  | [] => mret None
  | _ =>
      mret (Some (fold_left
                    (fun total_value '(quantity, price) =>
                       Decimal_add total_value
                         (Decimal_mul (Decimal_of_str (inject_Z quantity))
                                      (Decimal_of_str price)))
                    singles_data 0))
  end.

Definition _calculate_singles_value (self : ArbitrageAnalyzer) (sealed_product_id : UUID)
  : result (option Q) :=
  try_except
    (match db self with
     | Some db => _calculate_singles_value_with_db db sealed_product_id
     | None =>
         async_with_get_db_session
           (fun db => _calculate_singles_value_with_db db sealed_product_id)
     end)
    (fun e => Return None).

(** The three signal computations. *)
Definition _get_seller_count (self : ArbitrageAnalyzer) (product_id : UUID) : Z := 8.
Definition _get_price_volatility (self : ArbitrageAnalyzer) (product_id : UUID) : Q :=
  float_literal 15.0.
Definition _get_volume_consistency (self : ArbitrageAnalyzer) (product_id : UUID) : Q :=
  float_literal 0.75.

(** [sum(scores[factor] * weight for factor, weight in weights.items())]:
    the products are computed and added one by one, in the order of the
    weights, to a sum that starts at 0. *)
Fixpoint weighted_sum (python : interpreter) (scores : gmap string Q)
    (items : list (string * Q)) (state : Q * Q) : result Q :=
  match items with
  | [] => Return (sum_result state)
  | (factor, weight) :: rest =>
      match scores !! factor with
      | Some score =>
          weighted_sum python scores rest
            (sum_step python state (float_mul score weight))
      | None => Raise (KeyError factor)
      end
  end.

(** The body of [_calculate_confidence] once the three signals are known. *)
Definition confidence_of_signals (python : interpreter) (weights : list (string * Q))
    (price_volatility : Q) (seller_count : Z) (volume_consistency : Q)
    (margin_percentage : Q) : result Q :=
  let scores : gmap string Q := ∅ in
  let scores :=
    <["price_stability"%string :=
        py_max0 (float_sub 1 (float_div price_volatility 50))]> scores in
  let scores :=
    <["seller_count"%string :=
        if (seller_count <=? 5)%Z then float_literal 0.9
        else if (seller_count <=? 10)%Z then float_literal 0.7
        else float_literal 0.3]> scores in
  let scores := <["volume_history"%string := volume_consistency]> scores in
  let margin_float := float_of_Decimal margin_percentage in
  let scores :=
    <["margin_size"%string :=
        if Qltb 200 margin_float then float_literal 0.5
        else if Qltb 100 margin_float then float_literal 0.8
        else if Qltb 50 margin_float then float_literal 1.0
        else float_literal 0.7]> scores in
  total_score ← weighted_sum python scores weights (0, 0);
  mret (Decimal_of_str (py_round total_score 2)).

Definition _calculate_confidence (python : interpreter) (self : ArbitrageAnalyzer)
    (product : Product.t) (sealed_price singles_value margin_percentage : Q)
  : result Q :=
  confidence_of_signals python (confidence_weights self)
    (_get_price_volatility self (Product.id product))
    (_get_seller_count self (Product.id product))
    (_get_volume_consistency self (Product.id product))
    margin_percentage.

Definition _assess_risk_level (self : ArbitrageAnalyzer)
    (margin_percentage confidence_score : Q) : string :=
  if Qle_bool 0.8 confidence_score && Qle_bool 50 margin_percentage then "low"
  else if Qle_bool 0.6 confidence_score && Qle_bool 30 margin_percentage then "medium"
  else "high".

(** [analyze_sealed_product]; [utcnow] is the reading of the clock. *)
Definition analyze_sealed_product (python : interpreter) (self : ArbitrageAnalyzer)
    (sealed_product : Product.t) (utcnow : datetime)
  : result (option ArbitrageOpportunity.t) :=
  try_except
    (sealed_price ← _get_latest_price self (Product.id sealed_product) "sealed";
     match sealed_price with
     | None => mret None
     | Some sealed_price =>
     if negb (Decimal_bool sealed_price) then mret None else
     singles_value ← _calculate_singles_value self (Product.id sealed_product);
     match singles_value with
     | None => mret None
     | Some singles_value =>
     if negb (Decimal_bool singles_value) then mret None else
     let fee_rate := 0.15 in
     let net_singles_value := Decimal_mul singles_value (Decimal_sub 1 fee_rate) in
     ratio ← Decimal_div (Decimal_sub net_singles_value sealed_price) sealed_price;
     let margin_percentage := Decimal_mul ratio 100 in
     if Qltb margin_percentage (min_margin_threshold self) then mret None else
     confidence_score ←
       _calculate_confidence python self sealed_product sealed_price singles_value
                             margin_percentage;
     let risk_level := _assess_risk_level self margin_percentage confidence_score in
     let seller_count := _get_seller_count self (Product.id sealed_product) in
     let opportunity :=
       ArbitrageOpportunity.init (Product.id sealed_product) sealed_price
         singles_value margin_percentage confidence_score risk_level
         (Some seller_count) "active" (Some (utcnow + timedelta_hours 24)%Z) in
     mret (Some opportunity)
     end end)
    (fun e => Return None).

(** ** Request schema ([app/schemas/opportunity.py]) *)

Module OpportunityExecution.
Record t : Type := mk {
  quantity : Z;
  notes : option string
}.

(** [quantity: int = Field(..., ge=1, le=100)] and
    [notes: Optional[str] = Field(None, max_length=500)]: the body is
    accepted only when both constraints hold. *)
Definition validate (quantity : Z) (notes : option string) : option t :=
  if (1 <=? quantity)%Z && (quantity <=? 100)%Z
     && match notes with
        | Some s => (String.length s <=? 500)%nat
        | None => true
        end
  then Some (mk quantity notes)
  else None.
End OpportunityExecution.

(** ** Opportunity lifecycle *)

(** The kinds of failure an operation reports to its caller. *)
Inductive failure : Type :=
| NotFound
| InvalidArgument
| InvalidState
| Unexpected.

Inductive response (A : Type) : Type :=
| Success (body : A)
| Failure (kind : failure) (status_code : Z).
Arguments Success {A} body.
Arguments Failure {A} kind status_code.

(** The persisted opportunities, by primary key. *)
Abbreviation OpportunityStore := (gmap UUID ArbitrageOpportunity.t).

Module OpportunityService.

Definition with_execution (o : ArbitrageOpportunity.t) (quantity : Z)
    (notes : option string) (now : datetime) : ArbitrageOpportunity.t :=
  {| ArbitrageOpportunity.id := ArbitrageOpportunity.id o;
     ArbitrageOpportunity.sealed_product_id := ArbitrageOpportunity.sealed_product_id o;
     ArbitrageOpportunity.sealed_price := ArbitrageOpportunity.sealed_price o;
     ArbitrageOpportunity.singles_value := ArbitrageOpportunity.singles_value o;
     ArbitrageOpportunity.margin_percentage := ArbitrageOpportunity.margin_percentage o;
     ArbitrageOpportunity.confidence_score := ArbitrageOpportunity.confidence_score o;
     ArbitrageOpportunity.risk_level := ArbitrageOpportunity.risk_level o;
     ArbitrageOpportunity.seller_count := ArbitrageOpportunity.seller_count o;
     ArbitrageOpportunity.status := "executed";
     ArbitrageOpportunity.execution_quantity := Some quantity;
     ArbitrageOpportunity.execution_notes := notes;
     ArbitrageOpportunity.created_at := ArbitrageOpportunity.created_at o;
     ArbitrageOpportunity.updated_at := Some now;
     ArbitrageOpportunity.expires_at := ArbitrageOpportunity.expires_at o;
     ArbitrageOpportunity.executed_at := Some now |}.

Definition with_cancelled (o : ArbitrageOpportunity.t) (now : datetime)
  : ArbitrageOpportunity.t :=
  {| ArbitrageOpportunity.id := ArbitrageOpportunity.id o;
     ArbitrageOpportunity.sealed_product_id := ArbitrageOpportunity.sealed_product_id o;
     ArbitrageOpportunity.sealed_price := ArbitrageOpportunity.sealed_price o;
     ArbitrageOpportunity.singles_value := ArbitrageOpportunity.singles_value o;
     ArbitrageOpportunity.margin_percentage := ArbitrageOpportunity.margin_percentage o;
     ArbitrageOpportunity.confidence_score := ArbitrageOpportunity.confidence_score o;
     ArbitrageOpportunity.risk_level := ArbitrageOpportunity.risk_level o;
     ArbitrageOpportunity.seller_count := ArbitrageOpportunity.seller_count o;
     ArbitrageOpportunity.status := "cancelled";
     ArbitrageOpportunity.execution_quantity := ArbitrageOpportunity.execution_quantity o;
     ArbitrageOpportunity.execution_notes := ArbitrageOpportunity.execution_notes o;
     ArbitrageOpportunity.created_at := ArbitrageOpportunity.created_at o;
     ArbitrageOpportunity.updated_at := Some now;
     ArbitrageOpportunity.expires_at := ArbitrageOpportunity.expires_at o;
     ArbitrageOpportunity.executed_at := ArbitrageOpportunity.executed_at o |}.

(** Modelled from the spec: [OpportunityService.execute_opportunity] of
    [app/services/opportunity_service.py], which the endpoint calls and
    which is not part of the sources at hand.  It is the operation
    [execute(quantity, notes)]: only an active opportunity is executed; the
    call fails InvalidState when the current status is not active, fails
    InvalidArgument when the quantity is outside [1,100] (the operation
    checks its own preconditions), and otherwise sets the status, the
    execution quantity and notes, [executed_at] and [updated_at].  An
    unknown identifier yields no opportunity.  Both failures are reported
    as [ValueError]s, the exception the endpoint answers with a client
    error; [inl] tells which of the two it is. *)
Definition execute_opportunity (store : OpportunityStore) (opportunity_id : UUID)
    (quantity : Z) (notes : option string) (now : datetime)
  : (failure + option ArbitrageOpportunity.t) * OpportunityStore :=
  match store !! opportunity_id with
  | None => (inr None, store)
  | Some o =>
      if negb (String.eqb (ArbitrageOpportunity.status o) "active")
      then (inl InvalidState, store)
      else if negb ((1 <=? quantity)%Z && (quantity <=? 100)%Z)
      then (inl InvalidArgument, store)
      else
        let o' := with_execution o quantity notes now in
        (inr (Some o'), <[opportunity_id := o']> store)
  end.

(** Modelled from the spec: [OpportunityService.delete_opportunity], absent
    from the sources like the rest of the service; the endpoint documents
    it as setting the status to cancelled.  It is the operation [cancel()]:
    from any state the opportunity becomes cancelled, the record is kept,
    and cancelling a cancelled opportunity changes nothing (no column is
    modified, so [updated_at] is not refreshed either).  The result tells
    whether the identifier is known. *)
Definition delete_opportunity (store : OpportunityStore) (opportunity_id : UUID)
    (now : datetime) : bool * OpportunityStore :=
  match store !! opportunity_id with
  | None => (false, store)
  | Some o =>
      if String.eqb (ArbitrageOpportunity.status o) "cancelled"
      then (true, store)
      else (true, <[opportunity_id := with_cancelled o now]> store)
  end.

End OpportunityService.

(** ** Endpoints ([app/api/v1/opportunities.py]) *)

(** [POST /{opportunity_id}/execute].  The body is validated against
    [OpportunityExecution] before the handler runs; a rejected body is
    answered 422.  In the handler a missing opportunity is answered 404 and
    a [ValueError] of the service 400. *)
Definition execute_opportunity (store : OpportunityStore) (opportunity_id : UUID)
    (quantity : Z) (notes : option string) (now : datetime)
  : response ArbitrageOpportunity.t * OpportunityStore :=
  match OpportunityExecution.validate quantity notes with
  | None => (Failure InvalidArgument 422, store)
  | Some execution =>
      match OpportunityService.execute_opportunity store opportunity_id
              (OpportunityExecution.quantity execution)
              (OpportunityExecution.notes execution) now with
      | (inr (Some executed_opportunity), store') =>
          (Success executed_opportunity, store')
      | (inr None, store') => (Failure NotFound 404, store')
      | (inl kind, store') => (Failure kind 400, store')
      end
  end.

(** [DELETE /{opportunity_id}]: 204 on success, 404 when the service reports
    that there is no such opportunity. *)
Definition delete_opportunity (store : OpportunityStore) (opportunity_id : UUID)
    (now : datetime) : response unit * OpportunityStore :=
  match OpportunityService.delete_opportunity store opportunity_id now with
  | (true, store') => (Success tt, store')
  | (false, store') => (Failure NotFound 404, store')
  end.

(** ** The confidence scorer as specified

    The table of the scorer, written after the specification: four factors,
    their weights, the sum clipped to the unit interval and rounded to two
    decimals.  It is compared with [confidence_of_signals] below. *)

Module ConfidenceScorer.
Definition price_stability (volatility : Q) : Q :=
  if Qlt_le_dec 0 (1 - volatility / 50) then 1 - volatility / 50 else 0.

Definition seller_factor (sellers : Z) : Q :=
  if Z_le_dec sellers 5 then 0.9
  else if Z_le_dec sellers 10 then 0.7
  else 0.3.

Definition margin_factor (margin : Q) : Q :=
  if Qlt_le_dec 200 margin then 0.5
  else if Qlt_le_dec 100 margin then 0.8
  else if Qlt_le_dec 50 margin then 1.0
  else 0.7.

Definition clip (x lo hi : Q) : Q :=
  if Qlt_le_dec x lo then lo
  else if Qlt_le_dec hi x then hi
  else x.

Definition weighted (volatility : Q) (sellers : Z) (volume_consistency margin : Q) : Q :=
  0.30 * price_stability volatility
  + 0.20 * seller_factor sellers
  + 0.20 * volume_consistency
  + 0.30 * margin_factor margin.

Definition score (volatility : Q) (sellers : Z) (volume_consistency margin : Q) : Q :=
  py_round (clip (weighted volatility sellers volume_consistency margin) 0 1) 2.
End ConfidenceScorer.

(** ** The weighted sum on primitive floats

    The sum of the scorer evaluated with the binary64 arithmetic of the
    kernel, for signals and factors given as floats, and the potential
    profit likewise; [Q_of_float] is the exact value of a finite float.
    Used to check [round_binary64] and the operations built on it. *)

Definition Q_of_float (x : float) : option Q :=
  match Prim2SF x with
  | S754_zero _ => Some 0
  | S754_finite s m e =>
      Some ((if s then -1 else 1) * inject_Z (Zpos m) * 2 ^ e)
  | _ => None
  end.

Definition binary64_sum_step (python : interpreter) (state : float * float) (x : float)
  : float * float :=
  let '(f_result, c) := state in
  let t := (f_result + x)%float in
  match python with
  | before_3_12 => (t, c)
  | since_3_12 =>
      (t,
       if PrimFloat.leb (PrimFloat.abs x) (PrimFloat.abs f_result)
       then (c + ((f_result - t) + x))%float
       else (c + ((x - t) + f_result))%float)
  end.

#[warnings="-inexact-float"]
Definition binary64_total_score (python : interpreter)
    (price_volatility seller_factor volume_consistency margin_size : float) : float :=
  let price_stability := (1 - price_volatility / 50)%float in
  let '(f_result, c) :=
    fold_left (binary64_sum_step python)
      [(price_stability * 0.3)%float; (seller_factor * 0.2)%float;
       (volume_consistency * 0.2)%float; (margin_size * 0.3)%float]
      (0%float, 0%float) in
  if PrimFloat.eqb c 0 then f_result else (f_result + c)%float.

#[warnings="-inexact-float"]
Definition binary64_potential_profit (singles_value sealed_price : float) : float :=
  (singles_value * 0.85 - sealed_price)%float.

(** [x] is the float whose exact value is [q]. *)
Definition float_is (x : float) (q : Q) : bool :=
  match Q_of_float x with
  | Some v => Qeq_bool v q
  | None => false
  end.

(** ** The margin as specified

    Net singles value and margin percentage after the specification's
    formulas, with the fee rate fixed at 0.15. *)

Module Margin.
Definition fee_rate : Q := 0.15.
Definition net_singles_value (singles_value : Q) : Q :=
  singles_value * (1 - fee_rate).
Definition margin_percentage (sealed_price singles_value : Q) : Q :=
  ((net_singles_value singles_value - sealed_price) / sealed_price) * 100.
End Margin.

(** ** The latest observation of a product

    The price-history row that the analyzer's price query puts first: used
    to state where a resolved price comes from. *)
Definition latest_observation (db : Session) (product_id : UUID)
  : option PriceHistory.t :=
  hd_error (order_by_recorded_at_desc
              (filter_product_id product_id (price_history db))).

(** An observation of the product that no other observation of the product
    is more recent than. *)
Definition is_latest (db : Session) (product_id : UUID) (r : PriceHistory.t) : Prop :=
  In r (price_history db)
  /\ PriceHistory.product_id r = product_id
  /\ forall r' : PriceHistory.t,
       In r' (price_history db) ->
       PriceHistory.product_id r' = product_id ->
       (PriceHistory.recorded_at r' <= PriceHistory.recorded_at r)%Z.

(** ** The singles valuation as specified

    Every composition edge of the sealed product whose single has a latest
    price contributes quantity times that price, once; edges whose single
    has no price are left out; there is no value when no edge contributes. *)

Module SinglesValuator.
Definition resolved (db : Session) (sealed_product_id : UUID) : list (Z * Q) :=
  flat_map
    (fun ps =>
       if (ProductSingle.sealed_product_id ps =? sealed_product_id)%N
       then match latest_observation db (ProductSingle.single_product_id ps) with
            | Some r => [(ProductSingle.quantity ps, PriceHistory.price r)]
            | None => []
            end
       else [])
    (product_singles db).

Definition total (l : list (Z * Q)) : Q :=
  fold_left (fun acc '(quantity, price) => acc + inject_Z quantity * price) l 0.

Definition value (db : Session) (sealed_product_id : UUID) : option Q :=
  match resolved db sealed_product_id with
  | [] => None
  | l => Some (total l)
  end.
End SinglesValuator.

(** ** Sample data *)

Module Sample.
Definition healthy : statement -> option exn := fun _ => None.
Definition unreachable : statement -> option exn :=
  fun _ => Some (SQLAlchemyError "connection refused").

Definition box : Product.t :=
  Product.mk 10%N "Booster box" "sealed" "mtg" "true".

Definition observation (id product_id : N) (price : Q) (source : string)
    (seller_count : option Z) (recorded_at : Z) : PriceHistory.t :=
  PriceHistory.mk id product_id price source seller_count "high"
                  recorded_at recorded_at.

Definition contains (id single_product_id : N) (quantity : Z) : ProductSingle.t :=
  ProductSingle.mk id 10%N single_product_id quantity "true".

(** The box sells at 100; of its three singles two are priced (50 and 25,
    two copies each) and one has never been observed. *)
Definition observations : list PriceHistory.t :=
  [ observation 1 10 100 "tcgplayer" (Some 3%Z) 5;
    observation 2 20 40 "tcgplayer" None 4;
    observation 3 20 50 "tcgplayer" None 5;
    observation 4 21 25 "tcgplayer" None 5 ].

Definition composition : list ProductSingle.t :=
  [ contains 1 20 2; contains 2 21 2; contains 3 22 7 ].

Definition shop : Session := mkSession observations composition healthy.
Definition shop_down : Session := mkSession observations composition unreachable.
Definition empty_shop : Session := mkSession [] [] healthy.


(** A stored opportunity on the box, and the store that holds it. *)
Definition opportunity (status : string) : ArbitrageOpportunity.t :=
  {| ArbitrageOpportunity.id := Some 1%N;
     ArbitrageOpportunity.sealed_product_id := 10%N;
     ArbitrageOpportunity.sealed_price := 100;
     ArbitrageOpportunity.singles_value := 150;
     ArbitrageOpportunity.margin_percentage := 27.5;
     ArbitrageOpportunity.confidence_score := 0.71;
     ArbitrageOpportunity.risk_level := "high";
     ArbitrageOpportunity.seller_count := Some 8%Z;
     ArbitrageOpportunity.status := status;
     ArbitrageOpportunity.execution_quantity := Some 0%Z;
     ArbitrageOpportunity.execution_notes := None;
     ArbitrageOpportunity.created_at := Some 1000%Z;
     ArbitrageOpportunity.updated_at := Some 1000%Z;
     ArbitrageOpportunity.expires_at := Some 86400001000%Z;
     ArbitrageOpportunity.executed_at := None |}.

Definition store (status : string) : OpportunityStore :=
  {[ 1%N := opportunity status ]}.

(** Notes of 501 characters. *)
Definition long_notes : string :=
  string_of_list_ascii (repeat "x"%char 501).

(** An analyzer whose weights name a factor the scorer does not compute. *)
Definition analyzer_with_unknown_factor : ArbitrageAnalyzer :=
  {| db := Some shop;
     min_margin_threshold := 25;
     max_seller_threshold := 15;
     confidence_weights :=
       [("price_stability"%string, float_literal 0.3);
        ("liquidity"%string, float_literal 0.7)] |}.
End Sample.

(** ** Further sample data *)

Module Fixture.
(** A newer observation of single 20, at 60. *)
Definition newer_observation : PriceHistory.t :=
  Sample.observation 9 20 60 "ebay" (Some 4%Z) 8.

Definition shop_after_update : Session :=
  mkSession (Sample.observations ++ [newer_observation]) Sample.composition
            Sample.healthy.
End Fixture.

(** ** Sums used to state results *)

(** The sum of score times weight over the weights, a missing score
    counting for nothing. *)
Definition sum_weighted (python : interpreter) (scores : gmap string Q)
    (items : list (string * Q)) (state : Q * Q) : Q :=
  sum_result
    (fold_left
       (fun state '(factor, weight) =>
          sum_step python state (float_mul (default 0 (scores !! factor)) weight))
       items state).

(** ** More of the schemas ([app/schemas/opportunity.py]) *)

(** [v in l] on strings, and [bool(v)] of a string. *)
Definition str_in (v : string) (l : list string) : bool :=
  existsb (String.eqb v) l.
Definition str_bool (v : string) : bool := negb (String.eqb v "").

Module ArbitrageOpportunityUpdate.
Record t : Type := mk {
  status : option string;
  execution_quantity : option Z;
  execution_notes : option string
}.

(** [validate_status]: [if v and v not in [...]: raise ValueError]. *)
Definition validate_status (v : option string) : result (option string) :=
  match v with
  | Some s =>
      if str_bool s && negb (str_in s ["active"; "expired"; "executed"; "cancelled"])
      then Raise (ValueError "status must be one of: active, expired, executed, cancelled")
      else Return v
  | None => Return v
  end.

(** The body is accepted when [execution_quantity] is absent or [>= 0],
    [execution_notes] is absent or at most 500 characters long, and the
    status validator does not raise. *)
Definition validate (status : option string) (execution_quantity : option Z)
    (execution_notes : option string) : option t :=
  if match execution_quantity with
     | Some q => (0 <=? q)%Z
     | None => true
     end
     && match execution_notes with
        | Some s => (String.length s <=? 500)%nat
        | None => true
        end
  then match validate_status status with
       | Return status => Some (mk status execution_quantity execution_notes)
       | Raise _ => None
       end
  else None.
End ArbitrageOpportunityUpdate.

Module OpportunityFilters.
Record t : Type := mk {
  min_margin : option Q;
  max_margin : option Q;
  min_confidence : option Q;
  max_risk : option string;
  status : string;
  category : option string;
  created_after : option datetime;
  created_before : option datetime;
  expires_after : option datetime;
  expires_before : option datetime;
  skip : Z;
  limit : Z;
  sort_by : string;
  sort_order : string
}.

Definition validate_max_risk (v : option string) : result (option string) :=
  match v with
  | Some s =>
      if str_bool s && negb (str_in s ["low"; "medium"; "high"])
      then Raise (ValueError "max_risk must be one of: low, medium, high")
      else Return v
  | None => Return v
  end.

Definition validate_status (v : string) : result string :=
  let valid_statuses := ["active"; "expired"; "executed"; "cancelled"; "all"] in
  if negb (str_in v valid_statuses)
  then Raise (ValueError "status must be one of: active, expired, executed, cancelled, all")
  else Return v.

Definition validate_sort_by (v : string) : result string :=
  let valid_fields :=
    ["margin_percentage"; "confidence_score"; "created_at"; "expires_at";
     "sealed_price"] in
  if negb (str_in v valid_fields)
  then Raise (ValueError "sort_by must be one of: margin_percentage, confidence_score, created_at, expires_at, sealed_price")
  else Return v.

Definition validate_sort_order (v : string) : result string :=
  let quote := String (Ascii.ascii_of_nat 34) EmptyString in
  if negb (str_in v ["asc"; "desc"])
  then Raise (ValueError ("sort_order must be either " ++ quote ++ "asc" ++ quote
                          ++ " or " ++ quote ++ "desc" ++ quote))
  else Return v.

Definition ge0 (v : option Q) : bool :=
  match v with
  | Some x => Qle_bool 0 x
  | None => true
  end.

(** Construction of the filters: the field constraints, then the four
    validators; a violation raises a validation error, which is a
    [ValueError] (it is given here the text of the validator; the library
    wraps that text in a report of its own). *)
Definition validate (f : t) : result t :=
  if ge0 (min_margin f) && ge0 (max_margin f)
     && match min_confidence f with
        | Some c => Qle_bool 0 c && Qle_bool c 1
        | None => true
        end
     && (0 <=? skip f)%Z && (1 <=? limit f)%Z && (limit f <=? 200)%Z
  then
    _ ← validate_max_risk (max_risk f);
    _ ← validate_status (status f);
    _ ← validate_sort_by (sort_by f);
    _ ← validate_sort_order (sort_order f);
    mret f
  else Raise (ValueError "validation error for OpportunityFilters").
End OpportunityFilters.

(** ** More of the endpoints ([app/api/v1/opportunities.py])

    What a request ends in: the body the handler returns, the framework's
    own refusal of a request that fails the declared parameter or body
    constraints (422, the handler does not run), an [HTTPException] raised
    by the handler, or an [AttributeError] that the handler lets escape. *)

Inductive outcome (A : Type) : Type :=
| Responds (body : A)
| Unprocessable
| RaisesHTTPException (status_code : Z) (detail : string)
| RaisesAttributeError (message : string).
Arguments Responds {A} body.
Arguments Unprocessable {A}.
Arguments RaisesHTTPException {A} status_code detail.
Arguments RaisesAttributeError {A} message.

(** [isinstance(e, ValueError)] and [str(e)]. *)
Definition is_ValueError (e : exn) : bool :=
  match e with
  | ValueError _ => true
  | _ => false
  end.

Definition exn_str (e : exn) : string :=
  match e with
  | SQLAlchemyError msg => msg
  | InvalidRequestError msg => msg
  | KeyError key => key
  | DivisionByZero => "DivisionByZero"
  | InvalidOperation => "InvalidOperation"
  | TypeError msg => msg
  | ValueError msg => msg
  end.

Section Endpoints.

(** The methods of [OpportunityService] that the two handlers call; the
    service is not among the sources, so its methods are parameters. *)
Variable service_get_opportunities :
  OpportunityFilters.t -> result (list ArbitrageOpportunity.t).
Variable service_update_opportunity :
  UUID -> ArbitrageOpportunityUpdate.t -> result (option ArbitrageOpportunity.t).

(** [GET /].  In the handler the parameter [status] (the status filter, a
    string) hides the imported module [status]; both [except] clauses read
    an attribute of it to build their [HTTPException], which raises
    [AttributeError] in its place. *)
Definition get_opportunities (skip limit : Z) (min_margin : option Q)
    (max_risk : option string) (status : string) (category : option string)
    (sort_by sort_order : string) : outcome (list ArbitrageOpportunity.t) :=
  if negb ((0 <=? skip)%Z && (1 <=? limit)%Z && (limit <=? 200)%Z
           && OpportunityFilters.ge0 min_margin)
  then Unprocessable
  else
    match (filters ← OpportunityFilters.validate
                       (OpportunityFilters.mk min_margin None None max_risk status
                          category None None None None skip limit sort_by sort_order);
           service_get_opportunities filters) with
    | Return opportunities => Responds opportunities
    | Raise e =>
        if is_ValueError e
        then RaisesAttributeError "'str' object has no attribute 'HTTP_400_BAD_REQUEST'"
        else RaisesAttributeError "'str' object has no attribute 'HTTP_500_INTERNAL_SERVER_ERROR'"
    end.

(** [PUT /{opportunity_id}]. *)
Definition update_opportunity (opportunity_id : UUID) (status : option string)
    (execution_quantity : option Z) (execution_notes : option string)
  : outcome ArbitrageOpportunity.t :=
  match ArbitrageOpportunityUpdate.validate status execution_quantity execution_notes with
  | None => Unprocessable
  | Some opportunity_update =>
      match service_update_opportunity opportunity_id opportunity_update with
      | Return (Some updated_opportunity) => Responds updated_opportunity
      | Return None => RaisesHTTPException 404 "Opportunity not found"
      | Raise e =>
          if is_ValueError e
          then RaisesHTTPException 400 (exn_str e)
          else RaisesHTTPException 500 "Error updating opportunity"
      end
  end.

End Endpoints.

(** ** Session scopes ([app/core/database.py]) *)

(** What the session factory hands out, as far as the two scopes below use
    it: for each of the three calls they make, the exception it raises, if
    any. *)
Record Connection : Type := mkConnection {
  commit_raises : option exn;
  rollback_raises : option exn;
  close_raises : option exn
}.

Inductive session_call : Type :=
| Commit
| Rollback
| Close.

(** [db.rollback(); raise]: the exception at hand goes on, unless the
    rollback raises one of its own. *)
Definition rollback_and_raise {A : Type} (db : Connection) (e : exn) : result A :=
  match rollback_raises db with
  | Some e' => Raise e'
  | None => Raise e
  end.

(** [with get_db_session() as db: body]: the session is created, the body
    runs where the generator yields, then the session is committed; an
    exception of the body or of the commit is answered by a rollback and
    raised again; the session is closed in every case.  The result comes with
    the calls made on the session, in order. *)
Definition with_get_db_session {A : Type} (SessionLocal : result Connection)
    (body : Connection -> result A) : result A * list session_call :=
  match SessionLocal with
  | Raise e => (Raise e, [])
  | Return db =>
      let '(r, calls) :=
        match body db with
        | Return a =>
            match commit_raises db with
            | None => (Return a, [Commit])
            | Some e => (rollback_and_raise db e, [Commit; Rollback])
            end
        | Raise e => (rollback_and_raise db e, [Rollback])
        end in
      match close_raises db with
      | None => (r, calls ++ [Close])
      | Some e => (Raise e, calls ++ [Close])
      end
  end.

(** ** Requests of the scrapers ([app/scrapers/base_scraper.py]) *)

Module BaseScraper.
Record ClientResponse : Type := mkResponse {
  status : Z;
  text : string
}.

(** What one attempt runs into: a response, a timeout, or another
    exception. *)
Inductive attempt_result : Type :=
| Answered (response : ClientResponse)
| TimedOut
| Failed (e : exn).

(** What [make_request] does to the outside: it sleeps, it sends a request,
    it closes the session it opened. *)
Inductive event : Type :=
| Sleep (seconds : Q)
| Request (method url : string) (headers : gmap string string)
| CloseSession.

Record t : Type := mk {
  has_session : bool;
  rate_limit_delay : Q;
  max_retries : nat;
  headers : gmap string string
}.

(** [BaseScraper.__init__] for the scraping delay and the user agent of the
    settings; [has_session] tells whether a session was given. *)
Definition init (SCRAPING_DELAY_MS : Z) (USER_AGENT : string) (has_session : bool) : t :=
  {| has_session := has_session;
     rate_limit_delay := inject_Z SCRAPING_DELAY_MS / 1000;
     max_retries := 3;
     headers :=
       <["User-Agent"%string := USER_AGENT]>
       (<["Accept"%string :=
            "text/html,application/xhtml+xml,application/xml;q=0.9,*/*;q=0.8"%string]>
       (<["Accept-Language"%string := "en-US,en;q=0.5"%string]>
       (<["Accept-Encoding"%string := "gzip, deflate"%string]>
       (<["Connection"%string := "keep-alive"%string]>
       (<["Upgrade-Insecure-Requests"%string := "1"%string]> ∅))))) |}.

(** [2 ** attempt] seconds. *)
Definition backoff (attempt : nat) : Q := inject_Z (2 ^ Z.of_nat attempt).

(** The loop of [make_request] from [attempt] on, with [remaining] attempts
    to go.  [world attempt] is what the attempt meets: the random part of the
    rate-limit delay and the result of the request.  [kwargs_headers] is the
    entry [headers] of the keyword arguments, which every attempt replaces
    by the merged headers. *)
Fixpoint attempts (self : t) (method url : string)
    (world : nat -> Q * attempt_result) (kwargs_headers : gmap string string)
    (remaining attempt : nat) : option ClientResponse * list event :=
  match remaining with
  | O => (None, [])
  | S remaining' =>
      let '(jitter, result) := world attempt in
      let request_headers := kwargs_headers ∪ headers self in
      let tried :=
        [Sleep (rate_limit_delay self + jitter);
         Request method url request_headers] in
      let go_on (waited : list event) :=
        let slept :=
          if (attempt <? max_retries self - 1)%nat
          then [Sleep (backoff attempt)] else [] in
        let '(response, events) :=
          attempts self method url world request_headers remaining' (S attempt) in
        (response, tried ++ waited ++ slept ++ events) in
      match result with
      | Answered response =>
          if (status response =? 200)%Z then (Some response, tried)
          else if (status response =? 429)%Z then go_on [Sleep (backoff attempt)]
          else go_on []
      | TimedOut => go_on []
      | Failed e => go_on []
      end
  end.

(** [make_request]: the loop, then, when every attempt failed, the closing
    of the session if the scraper opened it itself. *)
Definition make_request (self : t) (url method : string)
    (kwargs_headers : gmap string string) (world : nat -> Q * attempt_result)
  : option ClientResponse * list event :=
  let '(response, events) :=
    attempts self method url world kwargs_headers (max_retries self) 0 in
  match response with
  | Some response => (Some response, events)
  | None => (None, events ++ (if has_session self then [] else [CloseSession]))
  end.

(** Readings of a list of events. *)
Definition total_sleep (events : list event) : Q :=
  fold_right (fun e s => match e with Sleep d => d + s | _ => s end) 0 events.

Definition requests (events : list event) : list (string * string * gmap string string) :=
  flat_map (fun e => match e with
                     | Request method url headers => [(method, url, headers)]
                     | _ => []
                     end) events.

Definition is_ok (r : attempt_result) : bool :=
  match r with
  | Answered response => (status response =? 200)%Z
  | _ => false
  end.

(** The bound on the sleeping time of the rounds from [attempt] on. *)
Definition sleep_bound (self : t) (remaining attempt : nat) : Q :=
  inject_Z (Z.of_nat remaining) * (rate_limit_delay self + (1 # 2))
  + (backoff (attempt + remaining) - backoff attempt)
  + match remaining with
    | O => 0
    | S before_last => backoff (attempt + before_last) - backoff attempt
    end.
End BaseScraper.

Module ScraperFixture.
Import BaseScraper.

(** A scraper that opens its own session, with a delay of two seconds. *)
Definition scraper : t := init 2000 "arbitrage-bot" false.

(** A site that first answers 429, then times out, then serves the page. *)
Definition slow_site (attempt : nat) : Q * attempt_result :=
  match attempt with
  | O => (1 # 4, Answered (mkResponse 429 ""))
  | S O => (1 # 2, TimedOut)
  | _ => (0, Answered (mkResponse 200 "<html></html>"))
  end.

(** A site that answers 429 to everything. *)
Definition busy_site (attempt : nat) : Q * attempt_result :=
  (1 # 2, Answered (mkResponse 429 "")).

Definition caller_headers : gmap string string :=
  <["User-Agent"%string := "curl"%string]> ∅.
End ScraperFixture.

(** * Properties *)

(** ** Comparisons and rounding *)

Lemma Qltb_true (x y : Q) : Qltb x y = true <-> x < y.
Proof.
  unfold Qltb. rewrite negb_true_iff. split.
  - intros H. apply Qnot_le_lt. intros Hle.
    apply Qle_bool_iff in Hle. congruence.
  - intros H. destruct (Qle_bool y x) eqn:E; [|reflexivity].
    apply Qle_bool_iff in E. lra.
Qed.

Lemma Qltb_false (x y : Q) : Qltb x y = false <-> y <= x.
Proof.
  unfold Qltb. rewrite negb_false_iff. apply Qle_bool_iff.
Qed.

(** Turns the boolean comparisons among the hypotheses into inequalities. *)
Ltac Qltb_to_Prop :=
  repeat match goal with
         | H : Qltb _ _ = true |- _ => apply Qltb_true in H
         | H : Qltb _ _ = false |- _ => apply Qltb_false in H
         | H : Qle_bool _ _ = true |- _ => apply Qle_bool_iff in H
         end.

(** Decides a closed inequality between rationals by computation. *)
Ltac Qle_compute := apply Qle_bool_iff; vm_compute; reflexivity.

Lemma Qeq_bool_false (x y : Q) : Qeq_bool x y = false <-> ~ x == y.
Proof.
  split.
  - intros H Heq. apply Qeq_bool_iff in Heq. congruence.
  - intros H. destruct (Qeq_bool x y) eqn:E; [|reflexivity].
    apply Qeq_bool_iff in E. contradiction.
Qed.

#[global] Instance round_half_even_comp : Proper (Qeq ==> eq) round_half_even.
Proof.
  intros x y Hxy. unfold round_half_even.
  rewrite (Qfloor_comp x y Hxy).
  assert (Hc : Qcompare (x - inject_Z (Qfloor y)) (1 # 2)
               = Qcompare (y - inject_Z (Qfloor y)) (1 # 2))
    by (apply Qcompare_comp; [rewrite Hxy|]; reflexivity).
  rewrite Hc. reflexivity.
Qed.

(** The rounded value is an integer within one half of the argument. *)
Lemma round_half_even_near (x : Q) :
  x - (1 # 2) <= inject_Z (round_half_even x) <= x + (1 # 2).
Proof.
  unfold round_half_even.
  pose proof (Qfloor_le x) as Hlo. pose proof (Qlt_floor x) as Hhi.
  rewrite inject_Z_plus in Hhi. change (inject_Z 1) with 1 in Hhi.
  destruct (Qcompare (x - inject_Z (Qfloor x)) (1 # 2)) eqn:E.
  - apply Qeq_alt in E.
    destruct (Z.even (Qfloor x)); [|rewrite inject_Z_plus; change (inject_Z 1) with 1]; lra.
  - apply Qlt_alt in E. lra.
  - apply Qgt_alt in E. rewrite inject_Z_plus. change (inject_Z 1) with 1. lra.
Qed.

(** Rounding stays between integer bounds of the argument. *)
Lemma round_half_even_bounds (a b : Z) (x : Q) :
  inject_Z a <= x <= inject_Z b -> (a <= round_half_even x <= b)%Z.
Proof.
  intros [Ha Hb].
  pose proof (Qfloor_le x) as Hlo. pose proof (Qlt_floor x) as Hhi.
  assert (Hfa : (a <= Qfloor x)%Z).
  { apply Z.lt_succ_r. rewrite Zlt_Qlt. unfold Z.succ. lra. }
  assert (Hfb : (Qfloor x <= b)%Z) by (rewrite Zle_Qle; lra).
  unfold round_half_even.
  destruct (Qcompare (x - inject_Z (Qfloor x)) (1 # 2)) eqn:E.
  - apply Qeq_alt in E. destruct (Z.even (Qfloor x)); [lia|].
    split; [lia|].
    apply Z.le_succ_l. rewrite Zlt_Qlt. lra.
  - lia.
  - apply Qgt_alt in E. split; [lia|].
    apply Z.le_succ_l. rewrite Zlt_Qlt. lra.
Qed.

Lemma py_round_2_unit_interval (x : Q) :
  0 <= x <= 1 -> 0 <= py_round x 2 <= 1.
Proof.
  intros [H0 H1]. unfold py_round.
  change (10 ^ 2) with 100.
  destruct (round_half_even_bounds 0 100 (x * 100)) as [Hlo Hhi].
  { change (inject_Z 0) with 0. change (inject_Z 100) with 100. lra. }
  rewrite Zle_Qle in Hlo, Hhi.
  change (inject_Z 0) with 0 in Hlo. change (inject_Z 100) with 100 in Hhi.
  split.
  - apply Qle_shift_div_l; lra.
  - apply Qle_shift_div_r; lra.
Qed.

(** [round(x, 2)] moves its argument by at most 0.005, onto a multiple of
    0.01. *)
Lemma py_round_2_near (x : Q) :
  Qabs (py_round x 2 - x) <= 0.005
  /\ py_round x 2 == inject_Z (round_half_even (x * 100)) / 100.
Proof.
  unfold py_round. change (10 ^ 2) with 100. split; [|reflexivity].
  pose proof (round_half_even_near (x * 100)) as [Hlo Hhi].
  set (r := inject_Z (round_half_even (x * 100))) in *.
  apply Qabs_Qle_condition. unfold Qdiv. change (/ 100) with (1 # 100).
  split; lra.
Qed.

(** ** Binary64 rounding *)

Lemma round_half_even_le (x : Q) (b : Z) :
  x <= inject_Z b -> (round_half_even x <= b)%Z.
Proof.
  intros H. pose proof (round_half_even_near x) as [_ Hhi].
  apply Z.lt_succ_r. rewrite Zlt_Qlt. unfold Z.succ.
  rewrite inject_Z_plus. change (inject_Z 1) with 1. lra.
Qed.

Lemma round_half_even_unique (x : Q) (n : Z) :
  inject_Z n - (1 # 2) < x < inject_Z n + (1 # 2) -> round_half_even x = n.
Proof.
  intros [Hlo Hhi]. pose proof (round_half_even_near x) as [Hl Hh].
  apply Z.le_antisymm.
  - apply Z.lt_succ_r. rewrite Zlt_Qlt. unfold Z.succ.
    rewrite inject_Z_plus. change (inject_Z 1) with 1. lra.
  - apply Z.lt_succ_r. rewrite Zlt_Qlt. unfold Z.succ.
    rewrite inject_Z_plus. change (inject_Z 1) with 1. lra.
Qed.

Lemma round_to_multiple_near (unit q : Q) :
  0 < unit ->
  q - unit / 2 <= round_to_multiple unit q <= q + unit / 2.
Proof.
  intros Hu. unfold round_to_multiple.
  pose proof (round_half_even_near (q / unit)) as [Hlo Hhi].
  set (r := inject_Z (round_half_even (q / unit))) in *.
  assert (Hq : q / unit * unit == q) by (field; lra).
  assert (H1 : (q / unit - (1 # 2)) * unit <= r * unit)
    by (apply Qmult_le_compat_r; lra).
  assert (H2 : r * unit <= (q / unit + (1 # 2)) * unit)
    by (apply Qmult_le_compat_r; lra).
  assert (E1 : (q / unit - (1 # 2)) * unit == q - unit / 2)
    by (rewrite <- Hq at 2; field; lra).
  assert (E2 : (q / unit + (1 # 2)) * unit == q + unit / 2)
    by (rewrite <- Hq at 2; field; lra).
  lra.
Qed.

(** The power of two that [Qlog2] finds is not above the number. *)
Lemma Qlog2_le (q : Q) : ~ q == 0 -> 2 ^ Qlog2 q <= Qabs q.
Proof.
  intros Hq. unfold Qlog2, Qlog.
  set (n := Z.abs (Qnum q)). set (dq := Zpos (Qden q)).
  destruct (Qle_bool (inject_Z 2 ^ (Z.log2 n - Z.log2 dq)) (Qabs q)) eqn:E.
  - apply Qle_bool_iff in E. exact E.
  - clear E.
    assert (Hn : (0 < n)%Z).
    { subst n. destruct q as [[|p|p] dd]; cbn; try lia.
      exfalso. apply Hq. reflexivity. }
    assert (Hd : (0 < dq)%Z) by (subst dq; lia).
    destruct (Z.log2_spec n Hn) as [Hn1 _].
    destruct (Z.log2_spec dq Hd) as [_ Hd2].
    pose proof (Z.log2_nonneg n) as Hln. pose proof (Z.log2_nonneg dq) as Hld.
    replace (Z.log2 n - Z.log2 dq - 1)%Z with (Z.log2 n - Z.succ (Z.log2 dq))%Z by lia.
    rewrite Qpower_minus by discriminate.
    change 2 with (inject_Z 2).
    rewrite <- !Zpower_Qpower by lia.
    set (A := (2 ^ Z.log2 n)%Z) in *. set (B := (2 ^ Z.succ (Z.log2 dq))%Z) in *.
    assert (HA : (0 < A)%Z) by (subst A; apply Z.pow_pos_nonneg; lia).
    apply Qle_shift_div_r.
    + change 0 with (inject_Z 0). rewrite <- Zlt_Qlt. lia.
    + assert (Habs : Qabs q = n # Qden q) by (destruct q; reflexivity).
      rewrite Habs. unfold Qle, Qmult, inject_Z. cbn.
      fold dq. nia.
Qed.

Lemma binary_unit_pos (e : Z) : 0 < 2 ^ e.
Proof. apply Qpower_0_lt. reflexivity. Qed.

(** The error of one rounding: a 2^-53rd of the number, or the half of the
    spacing of the subnormal numbers. *)
Lemma round_binary64_error (q : Q) :
  Qabs (round_binary64 q - q)
  <= Qabs q * (1 # 9007199254740992) + (1 # 1000000000000000000000000000000).
Proof.
  unfold round_binary64.
  destruct (Qeq_bool q 0) eqn:E.
  - apply Qeq_bool_iff in E. rewrite E. cbn. discriminate.
  - assert (Hq : ~ q == 0).
    { intros H. apply Qeq_bool_iff in H. congruence. }
    pose proof (Qlog2_le q Hq) as Hlog.
    set (e := Qlog2 q) in *.
    set (u := 2 ^ (Z.max e (-1022) - 52)).
    assert (Hu : 0 < u) by apply binary_unit_pos.
    pose proof (round_to_multiple_near u q Hu) as [Hlo Hhi].
    pose proof (Qabs_nonneg q) as Hnn.
    assert (Hub : u / 2 <= Qabs q * (1 # 9007199254740992)
                           + (1 # 1000000000000000000000000000000)).
    { subst u. destruct (Z.max_spec e (-1022)) as [[_ ->]|[Hle ->]].
      - assert (Ht : 2 ^ (-1022 - 52) / 2 <= 1 # 1000000000000000000000000000000).
        { apply Qle_bool_iff. vm_compute. reflexivity. }
        assert (0 <= Qabs q * (1 # 9007199254740992)) by lra.
        lra.
      - rewrite Qpower_minus by discriminate.
        assert (H52 : 2 ^ 52 == 4503599627370496) by reflexivity.
        rewrite H52.
        assert (Ht : 2 ^ e / 4503599627370496 / 2 == 2 ^ e * (1 # 9007199254740992))
          by (field).
        rewrite Ht.
        assert (2 ^ e * (1 # 9007199254740992) <= Qabs q * (1 # 9007199254740992))
          by (apply Qmult_le_compat_r; [exact Hlog|discriminate]).
        lra. }
    apply Qabs_Qle_condition. split; lra.
Qed.

Lemma round_binary64_within (q : Q) (B : Q) :
  - B <= q <= B ->
  q - (B * (1 # 9007199254740992) + (1 # 1000000000000000000000000000000))
  <= round_binary64 q
  <= q + (B * (1 # 9007199254740992) + (1 # 1000000000000000000000000000000)).
Proof.
  intros [Hlo Hhi].
  pose proof (round_binary64_error q) as H.
  apply Qabs_Qle_condition in H.
  assert (Hq : Qabs q <= B) by (apply Qabs_Qle_condition; split; lra).
  lra.
Qed.

(** An integer below 2^53 that bounds a number bounds its rounding. *)
Lemma round_binary64_le_Z (q : Q) (c : Z) :
  (0 <= c < 9007199254740992)%Z ->
  q <= inject_Z c -> round_binary64 q <= inject_Z c.
Proof.
  intros [Hc0 Hc] Hqc. unfold round_binary64.
  assert (Hc0' : 0 <= inject_Z c)
    by (change 0 with (inject_Z 0); rewrite <- Zle_Qle; exact Hc0).
  destruct (Qeq_bool q 0) eqn:E; [exact Hc0'|].
  assert (Hq : ~ q == 0).
  { intros H. apply Qeq_bool_iff in H. congruence. }
  pose proof (Qlog2_le q Hq) as Hlog.
  set (e := Qlog2 q) in *.
  set (k := (Z.max e (-1022) - 52)%Z).
  pose proof (binary_unit_pos k) as Hu.
  unfold round_to_multiple.
  destruct (Qlt_le_dec q 0) as [Hneg|Hpos].
  - assert (Hr : (round_half_even (q / 2 ^ k) <= 0)%Z).
    { apply round_half_even_le. change (inject_Z 0) with 0.
      apply Qle_shift_div_r; lra. }
    rewrite Zle_Qle in Hr. change (inject_Z 0) with 0 in Hr.
    assert (inject_Z (round_half_even (q / 2 ^ k)) * 2 ^ k <= 0 * 2 ^ k)
      by (apply Qmult_le_compat_r; lra).
    lra.
  - assert (Habs : Qabs q == q) by (apply Qabs_pos; exact Hpos).
    rewrite Habs in Hlog.
    assert (He : (e < 53)%Z).
    { apply (Qpower_lt_compat_l_inv 2); [|reflexivity].
      assert (H53 : 2 ^ 53 == 9007199254740992) by reflexivity.
      rewrite H53.
      assert (inject_Z c < inject_Z 9007199254740992) by (rewrite <- Zlt_Qlt; exact Hc).
      change (inject_Z 9007199254740992) with 9007199254740992 in *. lra. }
    assert (Hk : (k <= 0)%Z) by (subst k; lia).
    assert (Hinv : 2 ^ k * inject_Z (2 ^ (- k)) == 1).
    { rewrite Zpower_Qpower by lia. change (inject_Z 2) with 2.
      rewrite <- Qpower_plus by discriminate.
      replace (k + - k)%Z with 0%Z by lia. reflexivity. }
    assert (Hr : (round_half_even (q / 2 ^ k) <= c * 2 ^ (- k))%Z).
    { apply round_half_even_le. rewrite inject_Z_mult.
      apply Qle_shift_div_r; [exact Hu|].
      rewrite <- Qmult_assoc, (Qmult_comm (inject_Z (2 ^ (- k)))), Hinv. lra. }
    rewrite Zle_Qle, inject_Z_mult in Hr.
    assert (inject_Z (round_half_even (q / 2 ^ k)) * 2 ^ k
            <= inject_Z c * inject_Z (2 ^ (- k)) * 2 ^ k)
      by (apply Qmult_le_compat_r; lra).
    assert (inject_Z c * inject_Z (2 ^ (- k)) * 2 ^ k == inject_Z c)
      by (rewrite <- Qmult_assoc, (Qmult_comm (inject_Z (2 ^ (- k)))), Hinv; ring).
    lra.
Qed.

Lemma round_binary64_above (q : Q) :
  0 <= q ->
  q - (q * (1 # 9007199254740992) + (1 # 1000000000000000000000000000000))
  <= round_binary64 q.
Proof.
  intros Hq. pose proof (round_binary64_error q) as H.
  apply Qabs_Qle_condition in H. rewrite (Qabs_pos q Hq) in H. lra.
Qed.

Lemma round_binary64_below (q : Q) :
  q <= 0 ->
  round_binary64 q
  <= q + (- q * (1 # 9007199254740992) + (1 # 1000000000000000000000000000000)).
Proof.
  intros Hq. pose proof (round_binary64_error q) as H.
  apply Qabs_Qle_condition in H. rewrite (Qabs_neg q Hq) in H. lra.
Qed.

(** ** The roundings, checked on samples

    [round_binary64] and the operations built on it give, on the literals of
    the scorer, on its price stability, on its total for the four margin
    factors (and for a volume consistency of 0.625), with either
    interpreter, and on the potential profit of a sealed price of 0.68 with
    singles worth 1.00, the numbers that the primitive floats give. *)

#[warnings="-inexact-float"]
Lemma binary64_agrees :
  let total (python : interpreter)
        (price_volatility seller_factor volume_consistency margin_size : Q) :=
    sum_result
      (fold_left (sum_step python)
         [float_mul (float_sub 1 (float_div price_volatility 50)) (float_literal 0.3);
          float_mul seller_factor (float_literal 0.2);
          float_mul volume_consistency (float_literal 0.2);
          float_mul margin_size (float_literal 0.3)]
         (0, 0)) in
  float_is 0.3%float (float_literal 0.3) = true
  /\ float_is 0.2%float (float_literal 0.2) = true
  /\ float_is 0.9%float (float_literal 0.9) = true
  /\ float_is 0.7%float (float_literal 0.7) = true
  /\ float_is 0.8%float (float_literal 0.8) = true
  /\ float_is 0.85%float (float_literal 0.85) = true
  /\ float_is (1 - 15.0 / 50)%float (float_sub 1 (float_div 15 50)) = true
  /\ (forall python : interpreter,
        float_is (binary64_total_score python 15 0.7 0.75 0.7)
          (total python 15 (float_literal 0.7) 0.75 (float_literal 0.7)) = true
        /\ float_is (binary64_total_score python 15 0.7 0.75 1)
             (total python 15 (float_literal 0.7) 0.75 1) = true
        /\ float_is (binary64_total_score python 15 0.7 0.75 0.8)
             (total python 15 (float_literal 0.7) 0.75 (float_literal 0.8)) = true
        /\ float_is (binary64_total_score python 15 0.7 0.75 0.5)
             (total python 15 (float_literal 0.7) 0.75 0.5) = true
        /\ float_is (binary64_total_score python 15 0.7 0.625 1)
             (total python 15 (float_literal 0.7) 0.625 1) = true)
  /\ float_is (binary64_potential_profit 1 0.68)
       (float_sub (float_mul 1 (float_literal 0.85)) (float_literal 0.68)) = true.
Proof.
  cbv zeta.
  repeat match goal with
         | |- _ /\ _ => split
         | |- forall python : interpreter, _ => intros python; destruct python
         end;
    vm_compute; reflexivity.
Qed.

(** [Decimal_round] on a quotient that does not terminate: the margin of a
    sealed price of 3 with singles worth 10 has 28 digits. *)
Lemma Decimal_div_rounds :
  exists ratio : Q,
    Decimal_div (Decimal_sub (Decimal_mul 10 (Decimal_sub 1 0.15)) 3) 3 = Return ratio
    /\ ratio == 1.833333333333333333333333333
    /\ Decimal_mul ratio 100 == 183.3333333333333333333333333
    /\ ~ Decimal_mul ratio 100 == (10 * (1 - 0.15) - 3) / 3 * 100.
Proof.
  eexists. split; [reflexivity|].
  split; [vm_compute; reflexivity|].
  split; [vm_compute; reflexivity|].
  vm_compute. discriminate.
Qed.

(** ** The analyzer, step by step *)

Lemma _get_latest_price_returns self product_id product_type :
  exists r, _get_latest_price self product_id product_type = Return r.
Proof.
  unfold _get_latest_price, try_except.
  destruct (match db self with Some _ => _ | None => _ end); eauto.
Qed.

(** The statement of the singles valuation does not compile: both FROM
    elements of its scalar subquery are correlated away. *)
Lemma auto_correlate_singles :
  exists message : string,
    auto_correlate singles_enclosing_froms singles_subquery_froms
    = Raise (InvalidRequestError message).
Proof. eexists. reflexivity. Qed.

Lemma query_singles_data_raises (db : Session) (sealed_product_id : UUID) :
  exists e : exn, query_singles_data db sealed_product_id = Raise e.
Proof.
  unfold query_singles_data, execute.
  destruct (outage db select_singles_data) as [e|]; eexists; reflexivity.
Qed.

Lemma _calculate_singles_value_with_db_raises (db : Session) (sealed_product_id : UUID) :
  exists e : exn, _calculate_singles_value_with_db db sealed_product_id = Raise e.
Proof.
  unfold _calculate_singles_value_with_db.
  destruct (query_singles_data_raises db sealed_product_id) as [e ->].
  exists e. reflexivity.
Qed.

(** The valuation is unavailable, whatever the session holds. *)
Lemma _calculate_singles_value_None (self : ArbitrageAnalyzer) (sealed_product_id : UUID) :
  _calculate_singles_value self sealed_product_id = Return None.
Proof.
  unfold _calculate_singles_value. destruct (db self) as [session|].
  - destruct (_calculate_singles_value_with_db_raises session sealed_product_id)
      as [e ->].
    reflexivity.
  - reflexivity.
Qed.

(** Hence the analyzer finds no opportunity, whatever it is given. *)
Lemma analyze_sealed_product_None (python : interpreter) (self : ArbitrageAnalyzer)
    (sealed_product : Product.t) (utcnow : datetime) :
  analyze_sealed_product python self sealed_product utcnow = Return None.
Proof.
  unfold analyze_sealed_product.
  destruct (_get_latest_price_returns self (Product.id sealed_product) "sealed")
    as [[p|] Hp]; rewrite Hp; [|reflexivity].
  cbn [mbind result_bind]. destruct (Decimal_bool p); [|reflexivity].
  cbn [negb]. rewrite _calculate_singles_value_None. reflexivity.
Qed.

(** ** Risk classifier *)

(** C5. The risk classifier is a total function of the margin and the
    confidence only (the analyzer does not matter, and neither does the way
    the two numbers are written): it answers "low" when the confidence is at
    least 0.8 and the margin at least 50, otherwise "medium" when the
    confidence is at least 0.6 and the margin at least 30, otherwise "high";
    the boundary input margin 50, confidence 0.8 is "low". *)
Theorem C5_risk_classifier (self : ArbitrageAnalyzer) (margin_percentage confidence_score : Q) :
  (0.8 <= confidence_score /\ 50 <= margin_percentage ->
   _assess_risk_level self margin_percentage confidence_score = "low")
  /\ (~ (0.8 <= confidence_score /\ 50 <= margin_percentage) ->
      0.6 <= confidence_score /\ 30 <= margin_percentage ->
      _assess_risk_level self margin_percentage confidence_score = "medium")
  /\ (~ (0.8 <= confidence_score /\ 50 <= margin_percentage) ->
      ~ (0.6 <= confidence_score /\ 30 <= margin_percentage) ->
      _assess_risk_level self margin_percentage confidence_score = "high")
  /\ (forall (self' : ArbitrageAnalyzer) (m c : Q),
        m == margin_percentage -> c == confidence_score ->
        _assess_risk_level self' m c
        = _assess_risk_level self margin_percentage confidence_score)
  /\ _assess_risk_level self 50 0.8 = "low".
Proof.
  unfold _assess_risk_level. repeat split.
  - intros [Hc Hm]. apply Qle_bool_iff in Hc, Hm. rewrite Hc, Hm. reflexivity.
  - intros Hlow [Hc Hm].
    destruct (Qle_bool 0.8 confidence_score && Qle_bool 50 margin_percentage) eqn:E.
    + apply andb_true_iff in E as [E1 E2]. Qltb_to_Prop. tauto.
    + apply Qle_bool_iff in Hc, Hm. rewrite Hc, Hm. reflexivity.
  - intros Hlow Hmed.
    destruct (Qle_bool 0.8 confidence_score && Qle_bool 50 margin_percentage) eqn:E.
    + apply andb_true_iff in E as [E1 E2]. Qltb_to_Prop. tauto.
    + destruct (Qle_bool 0.6 confidence_score && Qle_bool 30 margin_percentage) eqn:E'.
      * apply andb_true_iff in E' as [E1 E2]. Qltb_to_Prop. tauto.
      * reflexivity.
  - intros self' m c Hm Hc.
    rewrite (Qleb_comp 0.8 0.8 (Qeq_refl _) c confidence_score Hc).
    rewrite (Qleb_comp 0.6 0.6 (Qeq_refl _) c confidence_score Hc).
    rewrite (Qleb_comp 50 50 (Qeq_refl _) m margin_percentage Hm).
    rewrite (Qleb_comp 30 30 (Qeq_refl _) m margin_percentage Hm).
    reflexivity.
Qed.

Lemma C5_risk_classifier_witness :
  (0.8 <= 0.8 /\ 50 <= 50)
  /\ _assess_risk_level (ArbitrageAnalyzer_init settings None) 50 0.8 = "low".
Proof.
  split.
  - split; discriminate.
  - apply (proj1 (C5_risk_classifier (ArbitrageAnalyzer_init settings None) 50 0.8)).
    split; discriminate.
Defined.

(** ** Confidence scorer *)

(** One step of the sum: the total and the compensation together follow
    the exact sum within 10^-15, and so does the total alone. *)
Lemma sum_step_close (python : interpreter) (f_result c x : Q) :
  - (1) <= f_result <= 1 -> - (1) <= x <= 1 -> - (1 # 1000) <= c <= 1 # 1000 ->
  let state := sum_step python (f_result, c) x in
  - (1 # 1000000000000000) <= fst state - (f_result + x) <= 1 # 1000000000000000
  /\ - (1 # 1000000000000000)
     <= fst state + snd state - (f_result + c + x)
     <= 1 # 1000000000000000
  /\ - (2 # 1000000000000000) <= snd state - c <= 2 # 1000000000000000.
Proof.
  intros Hf Hx Hc. unfold sum_step, float_add, float_sub.
  pose proof (round_binary64_within (f_result + x) 2 ltac:(lra)) as Ht.
  set (t := round_binary64 (f_result + x)) in *.
  destruct python; cbn [fst snd]; [repeat split; lra|].
  destruct (Qle_bool (Qabs x) (Qabs f_result)).
  - pose proof (round_binary64_within (f_result - t) 4 ltac:(lra)) as H1.
    set (d1 := round_binary64 (f_result - t)) in *.
    pose proof (round_binary64_within (d1 + x) (1 # 4) ltac:(lra)) as H2.
    set (d2 := round_binary64 (d1 + x)) in *.
    pose proof (round_binary64_within (c + d2) (1 # 4) ltac:(lra)) as H3.
    set (c' := round_binary64 (c + d2)) in *.
    repeat split; lra.
  - pose proof (round_binary64_within (x - t) 4 ltac:(lra)) as H1.
    set (d1 := round_binary64 (x - t)) in *.
    pose proof (round_binary64_within (d1 + f_result) (1 # 4) ltac:(lra)) as H2.
    set (d2 := round_binary64 (d1 + f_result)) in *.
    pose proof (round_binary64_within (c + d2) (1 # 4) ltac:(lra)) as H3.
    set (c' := round_binary64 (c + d2)) in *.
    repeat split; lra.
Qed.

Lemma sum_result_close (f_result c : Q) :
  - (2) <= f_result <= 2 -> - (1 # 1000) <= c <= 1 # 1000 ->
  - (1 # 1000000000000000)
  <= sum_result (f_result, c) - (f_result + c)
  <= 1 # 1000000000000000.
Proof.
  intros Hf Hc. unfold sum_result, float_add.
  destruct (Qeq_bool c 0) eqn:E.
  - apply Qeq_bool_iff in E. lra.
  - pose proof (round_binary64_within (f_result + c) 4 ltac:(lra)). lra.
Qed.

(** The products and the sum of the total, each operation rounded, stay
    within 10^-14 of the exact weighted sum of factors that are within
    10^-15 of the specified ones. *)
Lemma float_total_close (python : interpreter) (ps PS sf SF vol mf MF w2 w3 : Q) :
  w2 == 3602879701896397 # 18014398509481984 ->
  w3 == 5404319552844595 # 18014398509481984 ->
  0 <= ps <= 1 + (1 # 1000) ->
  - (1 # 1000000000000000) <= ps - PS <= 1 # 1000000000000000 ->
  0 <= sf <= 1 -> - (1 # 1000000000000000) <= sf - SF <= 1 # 1000000000000000 ->
  0 <= vol <= 1 ->
  0 <= mf <= 1 -> - (1 # 1000000000000000) <= mf - MF <= 1 # 1000000000000000 ->
  let total :=
    sum_result
      (sum_step python
         (sum_step python
            (sum_step python (sum_step python (0, 0) (float_mul ps w3))
                      (float_mul sf w2))
            (float_mul vol w2))
         (float_mul mf w3)) in
  - (1 # 100000000000000)
  <= total - (0.3 * PS + 0.2 * SF + 0.2 * vol + 0.3 * MF)
  <= 1 # 100000000000000.
Proof.
  intros Hw2 Hw3 Hps HPS Hsf HSF Hvol Hmf HMF total. subst total.
  unfold float_mul.
  assert (E1 : ps * w3 == ps * (5404319552844595 # 18014398509481984))
    by (rewrite Hw3; reflexivity).
  assert (E2 : sf * w2 == sf * (3602879701896397 # 18014398509481984))
    by (rewrite Hw2; reflexivity).
  assert (E3 : vol * w2 == vol * (3602879701896397 # 18014398509481984))
    by (rewrite Hw2; reflexivity).
  assert (E4 : mf * w3 == mf * (5404319552844595 # 18014398509481984))
    by (rewrite Hw3; reflexivity).
  pose proof (round_binary64_within (ps * w3) 1 ltac:(lra)) as R1.
  set (p1 := round_binary64 (ps * w3)) in *.
  pose proof (round_binary64_within (sf * w2) 1 ltac:(lra)) as R2.
  set (p2 := round_binary64 (sf * w2)) in *.
  pose proof (round_binary64_within (vol * w2) 1 ltac:(lra)) as R3.
  set (p3 := round_binary64 (vol * w2)) in *.
  pose proof (round_binary64_within (mf * w3) 1 ltac:(lra)) as R4.
  set (p4 := round_binary64 (mf * w3)) in *.
  pose proof (sum_step_close python 0 0 p1 ltac:(lra) ltac:(lra) ltac:(lra)) as S1.
  cbv zeta in S1. destruct (sum_step python (0, 0) p1) as [f1 c1].
  cbn [fst snd] in S1.
  pose proof (sum_step_close python f1 c1 p2 ltac:(lra) ltac:(lra) ltac:(lra)) as S2.
  cbv zeta in S2. destruct (sum_step python (f1, c1) p2) as [f2 c2].
  cbn [fst snd] in S2.
  pose proof (sum_step_close python f2 c2 p3 ltac:(lra) ltac:(lra) ltac:(lra)) as S3.
  cbv zeta in S3. destruct (sum_step python (f2, c2) p3) as [f3 c3].
  cbn [fst snd] in S3.
  pose proof (sum_step_close python f3 c3 p4 ltac:(lra) ltac:(lra) ltac:(lra)) as S4.
  cbv zeta in S4. destruct (sum_step python (f3, c3) p4) as [f4 c4].
  cbn [fst snd] in S4.
  pose proof (sum_result_close f4 c4 ltac:(lra) ltac:(lra)) as S5.
  lra.
Qed.

Lemma price_stability_close (volatility : Q) :
  0 <= volatility ->
  let ps := py_max0 (float_sub 1 (float_div volatility 50)) in
  let PS := ConfidenceScorer.price_stability volatility in
  0 <= ps <= 1 + (1 # 1000)
  /\ - (1 # 1000000000000000) <= ps - PS <= 1 # 1000000000000000.
Proof.
  intros Hv ps PS. subst ps PS.
  unfold ConfidenceScorer.price_stability, float_sub, float_div, py_max0.
  assert (Hx : volatility / 50 == volatility * (1 # 50)) by (field).
  set (x1 := volatility / 50) in *.
  destruct (Qlt_le_dec 100 volatility) as [Hbig|Hsmall].
  - pose proof (round_binary64_above x1 ltac:(lra)) as Ha.
    set (a := round_binary64 x1) in *.
    pose proof (round_binary64_below (1 - a) ltac:(lra)) as Hb.
    set (b := round_binary64 (1 - a)) in *.
    destruct (Qltb 0 b) eqn:E; Qltb_to_Prop; [lra|].
    destruct (Qlt_le_dec 0 (1 - x1)); lra.
  - pose proof (round_binary64_within x1 2 ltac:(lra)) as Ha.
    set (a := round_binary64 x1) in *.
    pose proof (round_binary64_within (1 - a) 2 ltac:(lra)) as Hb.
    set (b := round_binary64 (1 - a)) in *.
    destruct (Qltb 0 b) eqn:E; Qltb_to_Prop;
      destruct (Qlt_le_dec 0 (1 - x1)); lra.
Qed.

Lemma seller_factor_close (seller_count : Z) :
  let sf := if (seller_count <=? 5)%Z then float_literal 0.9
            else if (seller_count <=? 10)%Z then float_literal 0.7
            else float_literal 0.3 in
  let SF := ConfidenceScorer.seller_factor seller_count in
  0 <= sf <= 1 /\ - (1 # 1000000000000000) <= sf - SF <= 1 # 1000000000000000.
Proof.
  unfold ConfidenceScorer.seller_factor.
  destruct (Z_le_dec seller_count 5), (Z_le_dec seller_count 10);
    destruct (Z.leb_spec seller_count 5), (Z.leb_spec seller_count 10);
    try lia; cbv zeta; repeat split; Qle_compute.
Qed.

Lemma margin_factor_close (margin_float : Q) :
  let mf := if Qltb 200 margin_float then float_literal 0.5
            else if Qltb 100 margin_float then float_literal 0.8
            else if Qltb 50 margin_float then float_literal 1.0
            else float_literal 0.7 in
  let MF := ConfidenceScorer.margin_factor margin_float in
  0 <= mf <= 1 /\ - (1 # 1000000000000000) <= mf - MF <= 1 # 1000000000000000.
Proof.
  unfold ConfidenceScorer.margin_factor.
  destruct (Qltb 200 margin_float) eqn:E200; destruct (Qlt_le_dec 200 margin_float);
    destruct (Qltb 100 margin_float) eqn:E100; destruct (Qlt_le_dec 100 margin_float);
    destruct (Qltb 50 margin_float) eqn:E50; destruct (Qlt_le_dec 50 margin_float);
    Qltb_to_Prop; try lra; cbv zeta; repeat split; Qle_compute.
Qed.

Lemma weighted_sum_default (python : interpreter) (cfg : Settings)
    (db : option Session) (a b c d : Q) :
  weighted_sum python
    (<["margin_size"%string := d]>
       (<["volume_history"%string := c]>
          (<["seller_count"%string := b]>
             (<["price_stability"%string := a]> ∅))))
    (confidence_weights (ArbitrageAnalyzer_init cfg db)) (0, 0)
  = Return
      (sum_result
         (sum_step python
            (sum_step python
               (sum_step python
                  (sum_step python (0, 0) (float_mul a (float_literal 0.3)))
                  (float_mul b (float_literal 0.2)))
               (float_mul c (float_literal 0.2)))
            (float_mul d (float_literal 0.3)))).
Proof.
  cbn [confidence_weights ArbitrageAnalyzer_init weighted_sum].
  rewrite !lookup_insert_ne by done. rewrite lookup_insert_eq.
  rewrite !lookup_insert_ne by done. rewrite lookup_insert_eq.
  rewrite !lookup_insert_ne by done. rewrite lookup_insert_eq.
  rewrite lookup_insert_eq. reflexivity.
Qed.

(** The total of the scorer, with the weights of the analyzer, is within
    10^-14 of the exact weighted sum. *)
Lemma confidence_total_close (python : interpreter) (cfg : Settings)
    (db : option Session) (price_volatility : Q) (seller_count : Z)
    (volume_consistency margin_percentage : Q) :
  0 <= price_volatility ->
  0 <= volume_consistency <= 1 ->
  exists total_score : Q,
    confidence_of_signals python (confidence_weights (ArbitrageAnalyzer_init cfg db))
      price_volatility seller_count volume_consistency margin_percentage
    = Return (py_round total_score 2)
    /\ - (1 # 100000000000000)
       <= total_score
          - ConfidenceScorer.weighted price_volatility seller_count volume_consistency
              (float_of_Decimal margin_percentage)
       <= 1 # 100000000000000.
Proof.
  intros Hv Hc. unfold confidence_of_signals.
  rewrite weighted_sum_default. eexists. split; [reflexivity|].
  unfold ConfidenceScorer.weighted.
  destruct (price_stability_close price_volatility Hv) as [Hps HPS].
  destruct (seller_factor_close seller_count) as [Hsf HSF].
  destruct (margin_factor_close (float_of_Decimal margin_percentage)) as [Hmf HMF].
  cbv zeta in *.
  pose proof (float_total_close python _ _ _ _ volume_consistency _ _
                (float_literal 0.2) (float_literal 0.3)
                ltac:(vm_compute; reflexivity) ltac:(vm_compute; reflexivity)
                Hps HPS Hsf HSF Hc Hmf HMF) as H.
  cbv zeta in H. lra.
Qed.

Lemma price_stability_range (volatility : Q) :
  0 <= volatility -> 0 <= ConfidenceScorer.price_stability volatility <= 1.
Proof.
  intros H. unfold ConfidenceScorer.price_stability.
  destruct (Qlt_le_dec 0 (1 - volatility / 50)) as [Hp|Hp].
  - revert Hp. unfold Qdiv. change (/ 50) with (1 # 50). intros Hp. lra.
  - lra.
Qed.

Lemma seller_factor_range (sellers : Z) :
  0.3 <= ConfidenceScorer.seller_factor sellers <= 0.9.
Proof.
  unfold ConfidenceScorer.seller_factor.
  destruct (Z_le_dec sellers 5); [lra|].
  destruct (Z_le_dec sellers 10); lra.
Qed.

Lemma margin_factor_range (margin : Q) :
  0.5 <= ConfidenceScorer.margin_factor margin <= 1.
Proof.
  unfold ConfidenceScorer.margin_factor.
  destruct (Qlt_le_dec 200 margin); [lra|].
  destruct (Qlt_le_dec 100 margin); [lra|].
  destruct (Qlt_le_dec 50 margin); lra.
Qed.

Lemma weighted_range (volatility : Q) (sellers : Z) (volume_consistency margin : Q) :
  0 <= volatility -> 0 <= volume_consistency <= 1 ->
  0.21 <= ConfidenceScorer.weighted volatility sellers volume_consistency margin <= 0.98.
Proof.
  intros Hv Hc. unfold ConfidenceScorer.weighted.
  pose proof (price_stability_range volatility Hv).
  pose proof (seller_factor_range sellers).
  pose proof (margin_factor_range margin).
  lra.
Qed.

Lemma clip_inside (x lo hi : Q) : lo <= x <= hi -> ConfidenceScorer.clip x lo hi = x.
Proof.
  intros [H1 H2]. unfold ConfidenceScorer.clip.
  destruct (Qlt_le_dec x lo); [lra|].
  destruct (Qlt_le_dec hi x); [lra|reflexivity].
Qed.

(** Two numbers within 10^-14 of each other round to multiples of 0.01 that
    are equal or adjacent. *)
Lemma py_round_2_close (x y : Q) :
  - (1 # 100000000000000) <= x - y <= 1 # 100000000000000 ->
  Qabs (py_round x 2 - py_round y 2) <= 0.01.
Proof.
  intros Hxy. unfold py_round. change (10 ^ 2) with 100.
  pose proof (round_half_even_near (x * 100)) as Hx.
  pose proof (round_half_even_near (y * 100)) as Hy.
  set (n := round_half_even (x * 100)) in *.
  set (m := round_half_even (y * 100)) in *.
  assert (H1 : (n < m + 2)%Z)
    by (rewrite Zlt_Qlt, inject_Z_plus; change (inject_Z 2) with 2; lra).
  assert (H2 : (m < n + 2)%Z)
    by (rewrite Zlt_Qlt, inject_Z_plus; change (inject_Z 2) with 2; lra).
  assert (H3 : (n <= m + 1)%Z) by lia.
  assert (H4 : (m <= n + 1)%Z) by lia.
  rewrite Zle_Qle, inject_Z_plus in H3, H4.
  change (inject_Z 1) with 1 in H3, H4.
  apply Qabs_Qle_condition. unfold Qdiv. change (/ 100) with (1 # 100).
  split; lra.
Qed.

(** When the second one is not within 10^-12 of a half-integer after
    scaling, both round to the same multiple of 0.01. *)
Lemma py_round_2_same (x y : Q) :
  - (1 # 100000000000000) <= x - y <= 1 # 100000000000000 ->
  (forall k : Z, (1 # 1000000000000) < Qabs (y * 100 - (inject_Z k + (1 # 2)))) ->
  py_round x 2 == py_round y 2.
Proof.
  intros Hxy Hfar. unfold py_round. change (10 ^ 2) with 100.
  pose proof (round_half_even_near (y * 100)) as Hy.
  set (m := round_half_even (y * 100)) in *.
  assert (Hup := Hfar m). assert (Hdown := Hfar (m + -1)%Z).
  rewrite inject_Z_plus in Hdown. change (inject_Z (-1)) with (-1) in Hdown.
  assert (Hx : round_half_even (x * 100) = m).
  { apply round_half_even_unique. split.
    - revert Hdown. apply Qabs_case; intros; lra.
    - revert Hup. apply Qabs_case; intros; lra. }
  rewrite Hx. reflexivity.
Qed.

(** C4, as the code has it.  For valid factor inputs (a non-negative
    volatility, any seller count, a volume consistency in the unit interval,
    any margin) the scorer of the analyzer adds the four weighted factors in
    binary64 arithmetic (with the sum of either interpreter), the margin
    factor being read off the margin as a float, does not clip, and rounds
    to two decimals.  The score is a
    multiple of 0.01 in the unit interval; it differs from the specified
    score (the exact weighted sum of the table, clipped and rounded) by at
    most 0.01, and it is the specified score whenever the exact weighted sum
    is not within 10^-14 of a number with the digit 5 in its third decimal
    place and nothing after. *)
Theorem C4_confidence_score (python : interpreter) (cfg : Settings)
    (db : option Session) (price_volatility : Q) (seller_count : Z)
    (volume_consistency margin_percentage : Q) :
  0 <= price_volatility ->
  0 <= volume_consistency <= 1 ->
  let weighted :=
    ConfidenceScorer.weighted price_volatility seller_count volume_consistency
      (float_of_Decimal margin_percentage) in
  let specified :=
    ConfidenceScorer.score price_volatility seller_count volume_consistency
      (float_of_Decimal margin_percentage) in
  exists confidence_score : Q,
    confidence_of_signals python
      (confidence_weights (ArbitrageAnalyzer_init cfg db))
      price_volatility seller_count volume_consistency margin_percentage
    = Return confidence_score
    /\ (exists k : Z, confidence_score == inject_Z k / 100)
    /\ 0 <= confidence_score <= 1
    /\ Qabs (confidence_score - specified) <= 0.01
    /\ ((forall k : Z,
           (1 # 1000000000000) < Qabs (weighted * 100 - (inject_Z k + (1 # 2)))) ->
        confidence_score == specified).
Proof.
  intros Hv Hc weighted specified.
  destruct (confidence_total_close python cfg db price_volatility seller_count
              volume_consistency margin_percentage Hv Hc) as (total & -> & Hclose).
  pose proof (weighted_range price_volatility seller_count volume_consistency
                (float_of_Decimal margin_percentage) Hv Hc) as Hw.
  fold weighted in Hclose, Hw.
  assert (Hspec : specified = py_round weighted 2).
  { unfold specified, ConfidenceScorer.score. fold weighted.
    rewrite (clip_inside weighted 0 1) by lra. reflexivity. }
  rewrite Hspec.
  exists (py_round total 2). split; [reflexivity|].
  split; [exists (round_half_even (total * 100)); apply py_round_2_near|].
  split; [apply py_round_2_unit_interval; lra|].
  split; [apply py_round_2_close; exact Hclose|].
  intros Hfar. apply py_round_2_same; assumption.
Qed.

Lemma C4_confidence_score_witness :
  0 <= 15 /\ 0 <= 0.75 <= 1
  /\ exists confidence_score : Q,
       confidence_of_signals since_3_12
         (confidence_weights (ArbitrageAnalyzer_init settings None)) 15 8 0.75 60
       = Return confidence_score
       /\ 0 <= confidence_score <= 1
       /\ confidence_score == ConfidenceScorer.score 15 8 0.75 (float_of_Decimal 60)
       /\ ConfidenceScorer.score 15 8 0.75 (float_of_Decimal 60) == 0.80.
Proof.
  assert (Hv : 0 <= 15) by discriminate.
  assert (Hc : 0 <= 0.75 <= 1) by (split; discriminate).
  split; [exact Hv|]. split; [exact Hc|].
  destruct (C4_confidence_score since_3_12 settings None 15 8 0.75 60 Hv Hc)
    as (c & Hcode & _ & Hrange & _ & Hsame).
  exists c. split; [exact Hcode|]. split; [exact Hrange|].
  split; [|vm_compute; reflexivity].
  apply Hsame. intros k.
  assert (Hw : ConfidenceScorer.weighted 15 8 0.75 (float_of_Decimal 60) * 100 == 80)
    by (vm_compute; reflexivity).
  rewrite Hw.
  destruct (Z_le_dec k 79) as [Hk|Hk].
  - rewrite Zle_Qle in Hk. change (inject_Z 79) with 79 in Hk.
    apply Qabs_case; intros; lra.
  - assert (Hk' : (80 <= k)%Z) by lia.
    rewrite Zle_Qle in Hk'. change (inject_Z 80) with 80 in Hk'.
    apply Qabs_case; intros; lra.
Defined.

(** C4, as stated, fails where the exact weighted sum is a tie of the
    rounding.  For a volatility of 15, 8 sellers, a volume consistency of
    0.625 and a margin of 60 (all of them binary64 numbers) the weighted sum
    is 0.21 + 0.14 + 0.125 + 0.30 = 0.775, which rounds to 0.78; the sum of
    the floats lies below 0.775, with the sum of either interpreter, and the
    scorer returns 0.77. *)
Lemma C4_binary64_sum_below_tie :
  0 <= 15 /\ 0 <= 0.625 <= 1
  /\ ConfidenceScorer.weighted 15 8 0.625 60 == 0.775
  /\ ConfidenceScorer.score 15 8 0.625 60 == 0.78
  /\ float_of_Decimal 60 == 60
  /\ forall python : interpreter,
       exists confidence_score : Q,
         confidence_of_signals python
           (confidence_weights (ArbitrageAnalyzer_init settings None)) 15 8 0.625 60
         = Return confidence_score
         /\ confidence_score == 0.77
         /\ ~ confidence_score == ConfidenceScorer.score 15 8 0.625 60.
Proof.
  split; [discriminate|]. split; [split; discriminate|].
  split; [vm_compute; reflexivity|].
  split; [vm_compute; reflexivity|].
  split; [vm_compute; reflexivity|].
  intros python.
  destruct python; (eexists; split; [vm_compute; reflexivity|]);
    (split; [vm_compute; reflexivity|vm_compute; discriminate]).
Qed.

(** ** Confidence as a function of the margin *)

(** [float(margin)] against the limits of the bands: a limit that bounds the
    margin bounds the float, and a margin above a limit by 10^-13 gives a
    float above the limit. *)
Lemma float_of_Decimal_le (d : Q) (limit : Z) :
  (0 <= limit < 9007199254740992)%Z ->
  d <= inject_Z limit -> float_of_Decimal d <= inject_Z limit.
Proof. apply round_binary64_le_Z. Qed.


(** The score for the four margin factors. *)
Lemma _calculate_confidence_by_float (python : interpreter) (cfg : Settings)
    (db : option Session) (product : Product.t)
    (sealed_price singles_value margin_percentage : Q) :
  _calculate_confidence python (ArbitrageAnalyzer_init cfg db) product sealed_price
    singles_value margin_percentage
  = Return (if Qltb 200 (float_of_Decimal margin_percentage) then 0.65
            else if Qltb 100 (float_of_Decimal margin_percentage) then 0.74
            else if Qltb 50 (float_of_Decimal margin_percentage) then 0.80
            else 0.71).
Proof.
  unfold _calculate_confidence, confidence_of_signals.
  rewrite weighted_sum_default.
  destruct (Qltb 200 (float_of_Decimal margin_percentage));
    [destruct python; vm_compute; reflexivity|].
  destruct (Qltb 100 (float_of_Decimal margin_percentage));
    [destruct python; vm_compute; reflexivity|].
  destruct (Qltb 50 (float_of_Decimal margin_percentage));
    destruct python; vm_compute; reflexivity.
Qed.




(** ** Margin and threshold *)

(** C1.  The sample shop is the example of the specification: the box sells
    at 100 and its priced singles are worth 2 x 50 + 2 x 25 = 150, which
    makes a net value of 127.5 and a margin of 27.5, not below the threshold
    of 25.  The analyzer resolves the sealed price and then finds no
    opportunity, there as for every analyzer, product and clock reading: the
    singles valuation never delivers, and the computation of the margin is
    not reached. *)
Theorem C1_example_yields_no_opportunity (python : interpreter) (utcnow : datetime) :
  let self := ArbitrageAnalyzer_init settings (Some Sample.shop) in
  _get_latest_price self (Product.id Sample.box) "sealed" = Return (Some 100)
  /\ (exists singles_value : Q,
        SinglesValuator.value Sample.shop (Product.id Sample.box) = Some singles_value
        /\ singles_value == 150)
  /\ Margin.net_singles_value 150 == 127.5
  /\ Margin.margin_percentage 100 150 == 27.5
  /\ min_margin_threshold self <= 27.5
  /\ _calculate_singles_value self (Product.id Sample.box) = Return None
  /\ analyze_sealed_product python self Sample.box utcnow = Return None
  /\ forall (self' : ArbitrageAnalyzer) (sealed_product : Product.t),
       analyze_sealed_product python self' sealed_product utcnow = Return None.
Proof.
  cbv zeta.
  split; [reflexivity|].
  split; [eexists; split; [reflexivity|vm_compute; reflexivity]|].
  split; [vm_compute; reflexivity|].
  split; [vm_compute; reflexivity|].
  split; [Qle_compute|].
  split; [apply _calculate_singles_value_None|].
  split; [apply analyze_sealed_product_None|].
  intros self' sealed_product. apply analyze_sealed_product_None.
Qed.

(** ** Singles valuation *)

(** C2.  On the sample shop two of the three singles of the box have a
    latest price, and the specified valuation is 2 x 50 + 2 x 25 = 150.  The
    query of the analyzer is refused when it is compiled
    ([InvalidRequestError]), there as on every session; the caller takes the
    exception for a missing value, so that the valuation is unavailable
    although singles resolve. *)
Theorem C2_valuation_never_available :
  (exists singles_value : Q,
     SinglesValuator.value Sample.shop (Product.id Sample.box) = Some singles_value
     /\ singles_value == 150)
  /\ (exists message : string,
        _calculate_singles_value_with_db Sample.shop (Product.id Sample.box)
        = Raise (InvalidRequestError message))
  /\ _calculate_singles_value (ArbitrageAnalyzer_init settings (Some Sample.shop))
       (Product.id Sample.box) = Return None
  /\ (forall (db : Session) (sealed_product_id : UUID),
        exists e : exn,
          _calculate_singles_value_with_db db sealed_product_id = Raise e)
  /\ forall (self : ArbitrageAnalyzer) (sealed_product_id : UUID),
       _calculate_singles_value self sealed_product_id = Return None.
Proof.
  split; [eexists; split; [reflexivity|vm_compute; reflexivity]|].
  split; [eexists; reflexivity|].
  split; [apply _calculate_singles_value_None|].
  split; [apply _calculate_singles_value_with_db_raises|].
  apply _calculate_singles_value_None.
Qed.

(** ** Seller count *)

Lemma query_latest_price_observation (db : Session) (product_id : UUID) :
  query_latest_price db product_id
  = execute db select_latest_price
      (option_map PriceHistory.price (latest_observation db product_id)).
Proof.
  unfold query_latest_price, latest_observation.
  destruct (order_by_recorded_at_desc _); reflexivity.
Qed.


(** ** Exceptions *)

Lemma _get_latest_price_outage (self : ArbitrageAnalyzer) (session : Session)
    (e : exn) (product_id : UUID) (product_type : string) :
  db self = Some session ->
  outage session select_latest_price = Some e ->
  _get_latest_price self product_id product_type = Return None.
Proof.
  intros Hdb He. unfold _get_latest_price. rewrite Hdb.
  unfold _get_latest_price_with_db, query_latest_price, execute.
  rewrite He. reflexivity.
Qed.

Lemma _calculate_singles_value_outage (self : ArbitrageAnalyzer) (session : Session)
    (e : exn) (sealed_product_id : UUID) :
  db self = Some session ->
  outage session select_singles_data = Some e ->
  _calculate_singles_value self sealed_product_id = Return None.
Proof.
  intros Hdb He. unfold _calculate_singles_value. rewrite Hdb.
  unfold _calculate_singles_value_with_db, query_singles_data, execute.
  rewrite He. reflexivity.
Qed.

Lemma analyze_sealed_product_no_price (python : interpreter)
    (self : ArbitrageAnalyzer)
    (sealed_product : Product.t) (utcnow : datetime) :
  _get_latest_price self (Product.id sealed_product) "sealed" = Return None ->
  analyze_sealed_product python self sealed_product utcnow = Return None.
Proof.
  intros H. unfold analyze_sealed_product. rewrite H. reflexivity.
Qed.

Lemma analyze_sealed_product_no_singles_value (python : interpreter)
    (self : ArbitrageAnalyzer)
    (sealed_product : Product.t) (utcnow : datetime) :
  _calculate_singles_value self (Product.id sealed_product) = Return None ->
  analyze_sealed_product python self sealed_product utcnow = Return None.
Proof.
  intros H. unfold analyze_sealed_product.
  destruct (_get_latest_price_returns self (Product.id sealed_product) "sealed")
    as [[p|] Hp]; rewrite Hp; [|reflexivity].
  cbn [mbind result_bind]. destruct (Decimal_bool p); [|reflexivity].
  rewrite H. reflexivity.
Qed.

(** C10. [analyze_sealed_product] never raises: whatever the analyzer, the
    product and the state of the store, the call returns.  A statement that
    fails in the store, a session that cannot be opened, and an exception
    raised further down (the singles query that is refused, a weight naming
    a factor the scorer does not compute) all end in the result "no
    opportunity", the same result as a product without price, whatever the
    threshold. *)
Theorem C10_analyze_never_raises (python : interpreter)
    (self : ArbitrageAnalyzer)
    (sealed_product : Product.t) (utcnow : datetime) :
  (exists r : option ArbitrageOpportunity.t,
     analyze_sealed_product python self sealed_product utcnow = Return r)
  /\ (forall (session : Session) (e : exn),
        db self = Some session ->
        outage session select_latest_price = Some e
        \/ outage session select_singles_data = Some e ->
        analyze_sealed_product python self sealed_product utcnow = Return None)
  /\ (db self = None ->
      analyze_sealed_product python self sealed_product utcnow = Return None)
  /\ analyze_sealed_product python
       (ArbitrageAnalyzer_init settings (Some Sample.shop_down))
       Sample.box utcnow = Return None
  /\ _calculate_confidence python Sample.analyzer_with_unknown_factor
       Sample.box 100 150 27.5
     = Raise (KeyError "liquidity")
  /\ analyze_sealed_product python Sample.analyzer_with_unknown_factor
       Sample.box utcnow
     = Return None
  /\ analyze_sealed_product python
       (ArbitrageAnalyzer_init settings (Some Sample.empty_shop))
       Sample.box utcnow = Return None
  /\ analyze_sealed_product python
       (ArbitrageAnalyzer_init (mkSettings 30 "medium" 0.35) (Some Sample.shop))
       Sample.box utcnow = Return None.
Proof.
  split; [|split; [|split]].
  - unfold analyze_sealed_product, try_except.
    match goal with |- exists r, match ?c with _ => _ end = _ => destruct c end;
      eauto.
  - intros session e Hdb [He|He].
    + apply analyze_sealed_product_no_price.
      exact (_get_latest_price_outage self session e _ _ Hdb He).
    + apply analyze_sealed_product_no_singles_value.
      exact (_calculate_singles_value_outage self session e _ Hdb He).
  - intros Hdb. apply analyze_sealed_product_no_price.
    unfold _get_latest_price. rewrite Hdb. reflexivity.
  - destruct python; repeat split; reflexivity.
Qed.

Lemma C10_analyze_never_raises_witness :
  let self := ArbitrageAnalyzer_init settings (Some Sample.shop_down) in
  db self = Some Sample.shop_down
  /\ outage Sample.shop_down select_latest_price
     = Some (SQLAlchemyError "connection refused")
  /\ analyze_sealed_product since_3_12 self Sample.box 1000%Z = Return None.
Proof.
  intros self.
  assert (Hdb : db self = Some Sample.shop_down) by reflexivity.
  assert (He : outage Sample.shop_down select_latest_price
               = Some (SQLAlchemyError "connection refused")) by reflexivity.
  split; [exact Hdb|]. split; [exact He|].
  exact (proj1 (proj2 (C10_analyze_never_raises since_3_12 self Sample.box 1000%Z))
           Sample.shop_down _ Hdb (or_introl He)).
Defined.

(** ** Ordering by timestamp *)

Lemma insert_recorded_at_desc_perm (r : PriceHistory.t) (l : list PriceHistory.t) :
  Permutation (r :: l) (insert_recorded_at_desc r l).
Proof.
  induction l as [|r' l IH]; cbn [insert_recorded_at_desc]; [reflexivity|].
  destruct (PriceHistory.recorded_at r' <? PriceHistory.recorded_at r)%Z;
    [reflexivity|].
  rewrite perm_swap. apply perm_skip. exact IH.
Qed.

Lemma order_by_recorded_at_desc_perm (l : list PriceHistory.t) :
  Permutation l (order_by_recorded_at_desc l).
Proof.
  induction l as [|r l IH]; cbn [order_by_recorded_at_desc]; [reflexivity|].
  rewrite <- insert_recorded_at_desc_perm. apply perm_skip. exact IH.
Qed.

Lemma hd_insert_recorded_at_desc (r : PriceHistory.t) (l : list PriceHistory.t) :
  hd_error (insert_recorded_at_desc r l)
  = Some match l with
         | [] => r
         | r' :: _ =>
             if (PriceHistory.recorded_at r' <? PriceHistory.recorded_at r)%Z
             then r else r'
         end.
Proof.
  destruct l as [|r' l]; cbn [insert_recorded_at_desc]; [reflexivity|].
  destruct (PriceHistory.recorded_at r' <? PriceHistory.recorded_at r)%Z;
    reflexivity.
Qed.

(** The first row in descending order is a row of the list, and no row of
    the list is more recent. *)
Lemma hd_order_by_recorded_at_desc (l : list PriceHistory.t) (r : PriceHistory.t) :
  hd_error (order_by_recorded_at_desc l) = Some r ->
  In r l
  /\ forall r', In r' l ->
       (PriceHistory.recorded_at r' <= PriceHistory.recorded_at r)%Z.
Proof.
  revert r. induction l as [|a l IH]; intros r H; [discriminate|].
  cbn [order_by_recorded_at_desc] in H.
  rewrite hd_insert_recorded_at_desc in H. injection H as H.
  destruct (order_by_recorded_at_desc l) as [|h s] eqn:Hs.
  - subst r.
    assert (l = []) as ->.
    { apply Permutation_nil. rewrite <- Hs.
      symmetry. apply order_by_recorded_at_desc_perm. }
    split; [left; reflexivity|].
    intros r' [->|[]]. lia.
  - destruct (IH h eq_refl) as [Hin Hmax].
    destruct (Z.ltb_spec (PriceHistory.recorded_at h) (PriceHistory.recorded_at a));
      subst r.
    + split; [left; reflexivity|].
      intros r' [->|Hr']; [lia|]. specialize (Hmax r' Hr'). lia.
    + split; [right; exact Hin|].
      intros r' [->|Hr']; [lia|]. exact (Hmax r' Hr').
Qed.

Lemma hd_order_by_recorded_at_desc_None (l : list PriceHistory.t) :
  hd_error (order_by_recorded_at_desc l) = None <-> l = [].
Proof.
  split.
  - intros H. destruct l as [|a l]; [reflexivity|].
    cbn [order_by_recorded_at_desc] in H.
    rewrite hd_insert_recorded_at_desc in H. discriminate.
  - intros ->. reflexivity.
Qed.

Lemma filter_product_id_In (product_id : UUID) (l : list PriceHistory.t)
    (r : PriceHistory.t) :
  In r (filter_product_id product_id l)
  <-> In r l /\ PriceHistory.product_id r = product_id.
Proof.
  unfold filter_product_id. rewrite filter_In. rewrite N.eqb_eq. reflexivity.
Qed.

Lemma latest_observation_is_latest (db : Session) (product_id : UUID)
    (r : PriceHistory.t) :
  latest_observation db product_id = Some r -> is_latest db product_id r.
Proof.
  unfold latest_observation. intros H.
  apply hd_order_by_recorded_at_desc in H as [Hin Hmax].
  apply filter_product_id_In in Hin as [Hin Hpid].
  split; [exact Hin|]. split; [exact Hpid|].
  intros r' Hr' Hpid'. apply Hmax. apply filter_product_id_In. split; assumption.
Qed.

Lemma latest_observation_None (db : Session) (product_id : UUID) :
  latest_observation db product_id = None
  <-> forall r, In r (price_history db) -> PriceHistory.product_id r <> product_id.
Proof.
  unfold latest_observation. rewrite hd_order_by_recorded_at_desc_None. split.
  - intros H r Hr Hpid.
    assert (Hin : In r (filter_product_id product_id (price_history db)))
      by (apply filter_product_id_In; split; assumption).
    rewrite H in Hin. exact Hin.
  - intros H. destruct (filter_product_id product_id (price_history db)) as [|r l] eqn:E;
      [reflexivity|].
    assert (Hin : In r (filter_product_id product_id (price_history db)))
      by (rewrite E; left; reflexivity).
    apply filter_product_id_In in Hin as [Hin Hpid].
    exfalso. exact (H r Hin Hpid).
Qed.


Lemma filter_product_id_app (product_id : UUID) (l l' : list PriceHistory.t) :
  filter_product_id product_id (l ++ l')
  = filter_product_id product_id l ++ filter_product_id product_id l'.
Proof. unfold filter_product_id. apply List.filter_app. Qed.


(** ** Latest price *)

Lemma _get_latest_price_with_db_observation (db : Session) (product_id : UUID) :
  outage db select_latest_price = None ->
  _get_latest_price_with_db db product_id
  = Return (option_map PriceHistory.price (latest_observation db product_id)).
Proof.
  intros H. unfold _get_latest_price_with_db.
  rewrite query_latest_price_observation. unfold execute. rewrite H.
  destruct (latest_observation db product_id); reflexivity.
Qed.




(** ** Lifecycle: execution *)

Lemma OpportunityExecution_validate_Some (quantity : Z) (notes : option string) :
  (1 <= quantity <= 100)%Z
  /\ match notes with
     | Some s => (String.length s <= 500)%nat
     | None => True
     end ->
  OpportunityExecution.validate quantity notes
  = Some (OpportunityExecution.mk quantity notes).
Proof.
  intros [[H1 H2] Hn]. unfold OpportunityExecution.validate.
  apply Z.leb_le in H1, H2. rewrite H1, H2. cbn [andb].
  destruct notes as [s|]; [|reflexivity].
  apply Nat.leb_le in Hn. rewrite Hn. reflexivity.
Qed.

Lemma OpportunityExecution_validate_None (quantity : Z) (notes : option string) :
  ~ ((1 <= quantity <= 100)%Z
     /\ match notes with
        | Some s => (String.length s <= 500)%nat
        | None => True
        end) ->
  OpportunityExecution.validate quantity notes = None.
Proof.
  intros H. unfold OpportunityExecution.validate.
  destruct (Z.leb_spec 1 quantity); cbn [andb]; [|reflexivity].
  destruct (Z.leb_spec quantity 100); cbn [andb]; [|reflexivity].
  destruct notes as [s|].
  - destruct (Nat.leb_spec (String.length s) 500); [|reflexivity].
    exfalso. apply H. split; [lia|assumption].
  - exfalso. apply H. split; [lia|exact I].
Qed.

(** C3, as the code has it.  For a stored opportunity and a call
    [execute(quantity, notes)]: a quantity outside [1,100] or notes longer
    than 500 characters are refused with InvalidArgument before the
    opportunity is looked at; an accepted call on an opportunity that is not
    active fails with InvalidState; an accepted call on an active
    opportunity succeeds and sets the status to executed, the execution
    quantity, the notes and [executed_at].  A failed call leaves the store
    as it is, so the only transition is from active to executed. *)
Theorem C3_execute_opportunity (store : OpportunityStore) (opportunity_id : UUID)
    (o : ArbitrageOpportunity.t) (quantity : Z) (notes : option string)
    (now : datetime) :
  store !! opportunity_id = Some o ->
  let accepted :=
    (1 <= quantity <= 100)%Z
    /\ match notes with
       | Some s => (String.length s <= 500)%nat
       | None => True
       end in
  (~ accepted ->
   execute_opportunity store opportunity_id quantity notes now
   = (Failure InvalidArgument 422, store))
  /\ (accepted -> ArbitrageOpportunity.status o <> "active" ->
      execute_opportunity store opportunity_id quantity notes now
      = (Failure InvalidState 400, store))
  /\ (accepted -> ArbitrageOpportunity.status o = "active" ->
      exists o' : ArbitrageOpportunity.t,
        execute_opportunity store opportunity_id quantity notes now
        = (Success o', <[opportunity_id := o']> store)
        /\ ArbitrageOpportunity.status o' = "executed"
        /\ ArbitrageOpportunity.execution_quantity o' = Some quantity
        /\ ArbitrageOpportunity.execution_notes o' = notes
        /\ ArbitrageOpportunity.executed_at o' = Some now
        /\ ArbitrageOpportunity.updated_at o' = Some now
        /\ ArbitrageOpportunity.margin_percentage o'
           = ArbitrageOpportunity.margin_percentage o
        /\ ArbitrageOpportunity.confidence_score o'
           = ArbitrageOpportunity.confidence_score o)
  /\ (forall (r : response ArbitrageOpportunity.t) (store' : OpportunityStore),
        execute_opportunity store opportunity_id quantity notes now = (r, store') ->
        store' = store
        \/ (ArbitrageOpportunity.status o = "active"
            /\ exists o' : ArbitrageOpportunity.t,
                 r = Success o'
                 /\ store' = <[opportunity_id := o']> store
                 /\ ArbitrageOpportunity.status o' = "executed")).
Proof.
  intros Hlookup accepted.
  assert (Hrefused : ~ accepted ->
            execute_opportunity store opportunity_id quantity notes now
            = (Failure InvalidArgument 422, store)).
  { intros H. unfold execute_opportunity.
    rewrite (OpportunityExecution_validate_None quantity notes H). reflexivity. }
  assert (Hstate : accepted -> ArbitrageOpportunity.status o <> "active" ->
            execute_opportunity store opportunity_id quantity notes now
            = (Failure InvalidState 400, store)).
  { intros H Hs. unfold execute_opportunity.
    rewrite (OpportunityExecution_validate_Some quantity notes H).
    cbn [OpportunityExecution.quantity OpportunityExecution.notes].
    unfold OpportunityService.execute_opportunity. rewrite Hlookup.
    apply String.eqb_neq in Hs. rewrite Hs. reflexivity. }
  assert (Hdone : accepted -> ArbitrageOpportunity.status o = "active" ->
            execute_opportunity store opportunity_id quantity notes now
            = (Success (OpportunityService.with_execution o quantity notes now),
               <[opportunity_id := OpportunityService.with_execution o quantity notes now]>
                 store)).
  { intros H Hs. unfold execute_opportunity.
    rewrite (OpportunityExecution_validate_Some quantity notes H).
    cbn [OpportunityExecution.quantity OpportunityExecution.notes].
    unfold OpportunityService.execute_opportunity. rewrite Hlookup.
    apply String.eqb_eq in Hs. rewrite Hs. cbn [negb].
    destruct H as [[H1 H2] _]. apply Z.leb_le in H1, H2. rewrite H1, H2.
    reflexivity. }
  split; [exact Hrefused|]. split; [exact Hstate|]. split.
  - intros H Hs. eexists. split; [exact (Hdone H Hs)|].
    repeat split; reflexivity.
  - intros r store' Hcall.
    assert (Hdec : accepted \/ ~ accepted).
    { unfold accepted.
      destruct (Z_le_dec 1 quantity); [|right; lia].
      destruct (Z_le_dec quantity 100); [|right; lia].
      destruct notes as [s|]; [|left; split; [lia|exact I]].
      destruct (Nat.le_gt_cases (String.length s) 500);
        [left; split; [lia|assumption]|right; lia]. }
    destruct Hdec as [H|H].
    + destruct (String.eqb_spec (ArbitrageOpportunity.status o) "active") as [Hs|Hs].
      * right. split; [exact Hs|].
        rewrite (Hdone H Hs) in Hcall. injection Hcall as <- <-.
        eexists. repeat split; reflexivity.
      * left. rewrite (Hstate H Hs) in Hcall. injection Hcall as _ <-. reflexivity.
    + left. rewrite (Hrefused H) in Hcall. injection Hcall as _ <-. reflexivity.
Qed.

Lemma C3_execute_opportunity_witness :
  Sample.store "active" !! 1%N = Some (Sample.opportunity "active")
  /\ ((1 <= 50 <= 100)%Z /\ True)
  /\ ArbitrageOpportunity.status (Sample.opportunity "active") = "active"
  /\ exists o' : ArbitrageOpportunity.t,
       fst (execute_opportunity (Sample.store "active") 1%N 50 None 2000%Z)
       = Success o'
       /\ ArbitrageOpportunity.status o' = "executed"
       /\ ArbitrageOpportunity.execution_quantity o' = Some 50%Z
       /\ ArbitrageOpportunity.executed_at o' = Some 2000%Z.
Proof.
  assert (Hl : Sample.store "active" !! 1%N = Some (Sample.opportunity "active"))
    by reflexivity.
  assert (Ha : (1 <= 50 <= 100)%Z /\ True) by (split; [lia|exact I]).
  assert (Hs : ArbitrageOpportunity.status (Sample.opportunity "active") = "active")
    by reflexivity.
  split; [exact Hl|]. split; [exact Ha|]. split; [exact Hs|].
  destruct (proj1 (proj2 (proj2
              (C3_execute_opportunity (Sample.store "active") 1%N
                 (Sample.opportunity "active") 50%Z None 2000%Z Hl))) Ha Hs)
    as (o' & Hcall & Hst & Hq & _ & He & _).
  exists o'. rewrite Hcall. repeat split; assumption.
Defined.

(** C3, as stated, fails on an accepted quantity with over-long notes: the
    opportunity is active and the quantity is 50, yet the call is refused
    because the notes have 501 characters.  It also fails on the order of
    the checks: with a quantity of 0 an executed opportunity is refused for
    its argument, not for its state. *)
Lemma C3_long_notes_refused :
  Sample.store "active" !! 1%N = Some (Sample.opportunity "active")
  /\ ArbitrageOpportunity.status (Sample.opportunity "active") = "active"
  /\ (1 <= 50 <= 100)%Z
  /\ String.length Sample.long_notes = 501%nat
  /\ execute_opportunity (Sample.store "active") 1%N 50
       (Some Sample.long_notes) 2000%Z
     = (Failure InvalidArgument 422, Sample.store "active")
  /\ (forall o' : ArbitrageOpportunity.t,
        fst (execute_opportunity (Sample.store "active") 1%N 50
               (Some Sample.long_notes) 2000%Z)
        <> Success o')
  /\ ArbitrageOpportunity.status (Sample.opportunity "executed") <> "active"
  /\ execute_opportunity (Sample.store "executed") 1%N 0 None 2000%Z
     = (Failure InvalidArgument 422, Sample.store "executed").
Proof.
  split; [reflexivity|]. split; [reflexivity|]. split; [lia|].
  split; [reflexivity|]. split; [reflexivity|].
  split; [intros o'; discriminate|]. split; [discriminate|reflexivity].
Qed.

(** ** Lifecycle: cancellation *)

(** C8. Cancelling a stored opportunity, in whatever state, succeeds and
    leaves it stored with the status cancelled; the other opportunities and
    the set of stored identifiers are unchanged, so no record is removed;
    cancelling again succeeds and changes nothing. *)
Theorem C8_cancel_idempotent (store : OpportunityStore) (opportunity_id : UUID)
    (o : ArbitrageOpportunity.t) (now now' : datetime) :
  store !! opportunity_id = Some o ->
  exists (store1 : OpportunityStore) (o1 : ArbitrageOpportunity.t),
    delete_opportunity store opportunity_id now = (Success tt, store1)
    /\ store1 !! opportunity_id = Some o1
    /\ ArbitrageOpportunity.status o1 = "cancelled"
    /\ dom store1 = dom store
    /\ (forall j : UUID, j <> opportunity_id -> store1 !! j = store !! j)
    /\ delete_opportunity store1 opportunity_id now' = (Success tt, store1).
Proof.
  intros Hlookup.
  unfold delete_opportunity, OpportunityService.delete_opportunity.
  rewrite Hlookup.
  destruct (String.eqb_spec (ArbitrageOpportunity.status o) "cancelled") as [Hs|Hs].
  - exists store, o. split; [reflexivity|]. split; [exact Hlookup|].
    split; [exact Hs|]. split; [reflexivity|]. split; [reflexivity|].
    rewrite Hlookup. apply String.eqb_eq in Hs. rewrite Hs. reflexivity.
  - exists (<[opportunity_id := OpportunityService.with_cancelled o now]> store),
      (OpportunityService.with_cancelled o now).
    split; [reflexivity|]. split; [apply lookup_insert_eq|].
    split; [reflexivity|]. split.
    + rewrite dom_insert_L.
      assert (Hdom : opportunity_id ∈ dom store) by (apply elem_of_dom; eauto).
      apply set_eq. intros j. rewrite elem_of_union, elem_of_singleton.
      split; [intros [->|Hj]; assumption|intros Hj; right; exact Hj].
    + split.
      * intros j Hj. apply lookup_insert_ne. congruence.
      * rewrite lookup_insert_eq. reflexivity.
Qed.

Lemma C8_cancel_idempotent_witness :
  Sample.store "executed" !! 1%N = Some (Sample.opportunity "executed")
  /\ exists (store1 : OpportunityStore) (o1 : ArbitrageOpportunity.t),
       delete_opportunity (Sample.store "executed") 1%N 2000%Z = (Success tt, store1)
       /\ store1 !! 1%N = Some o1
       /\ ArbitrageOpportunity.status o1 = "cancelled"
       /\ dom store1 = dom (Sample.store "executed")
       /\ (forall j : UUID, j <> 1%N -> store1 !! j = Sample.store "executed" !! j)
       /\ delete_opportunity store1 1%N 3000%Z = (Success tt, store1).
Proof.
  assert (Hl : Sample.store "executed" !! 1%N = Some (Sample.opportunity "executed"))
    by reflexivity.
  split; [exact Hl|].
  exact (C8_cancel_idempotent (Sample.store "executed") 1%N
           (Sample.opportunity "executed") 2000%Z 3000%Z Hl).
Defined.

(** * Further properties of the analyzer *)

(** ** Recording a newer observation *)

(** Appending to the price history an observation that is more recent than
    every observation of its product makes its price the latest price of
    that product, and leaves the latest price of every other product as it
    was. *)
Theorem latest_price_after_newer_observation (db db' : Session) (r : PriceHistory.t) :
  outage db select_latest_price = None ->
  outage db' select_latest_price = None ->
  price_history db' = price_history db ++ [r] ->
  ((forall r' : PriceHistory.t,
      In r' (price_history db) ->
      PriceHistory.product_id r' = PriceHistory.product_id r ->
      (PriceHistory.recorded_at r' < PriceHistory.recorded_at r)%Z) ->
   _get_latest_price_with_db db' (PriceHistory.product_id r)
   = Return (Some (PriceHistory.price r)))
  /\ (forall product_id : UUID,
        product_id <> PriceHistory.product_id r ->
        _get_latest_price_with_db db' product_id
        = _get_latest_price_with_db db product_id).
Proof.
  intros Hok Hok' Happ. split.
  - intros Hnewer.
    rewrite (_get_latest_price_with_db_observation db' _ Hok').
    destruct (latest_observation db' (PriceHistory.product_id r)) as [r''|] eqn:E.
    + apply latest_observation_is_latest in E. destruct E as (Hin & Hpid & Hmax).
      rewrite Happ in Hin, Hmax.
      assert (Hr : In r (price_history db ++ [r]))
        by (apply in_or_app; right; left; reflexivity).
      specialize (Hmax r Hr eq_refl).
      apply in_app_or in Hin as [Hin|[<-|[]]]; [|reflexivity].
      specialize (Hnewer r'' Hin Hpid). lia.
    + exfalso. rewrite latest_observation_None in E.
      apply (E r); [|reflexivity].
      rewrite Happ. apply in_or_app. right. left. reflexivity.
  - intros product_id Hne.
    rewrite (_get_latest_price_with_db_observation db' _ Hok').
    rewrite (_get_latest_price_with_db_observation db _ Hok).
    unfold latest_observation. rewrite Happ, filter_product_id_app.
    assert (Hnil : filter_product_id product_id [r] = []).
    { unfold filter_product_id. cbn [List.filter].
      destruct (N.eqb_spec (PriceHistory.product_id r) product_id) as [Heq|_];
        [congruence|reflexivity]. }
    rewrite Hnil, app_nil_r. reflexivity.
Qed.

Lemma latest_price_after_newer_observation_witness :
  outage Sample.shop select_latest_price = None
  /\ outage Fixture.shop_after_update select_latest_price = None
  /\ price_history Fixture.shop_after_update
     = price_history Sample.shop ++ [Fixture.newer_observation]
  /\ (forall r' : PriceHistory.t,
        In r' (price_history Sample.shop) ->
        PriceHistory.product_id r' = PriceHistory.product_id Fixture.newer_observation ->
        (PriceHistory.recorded_at r'
         < PriceHistory.recorded_at Fixture.newer_observation)%Z)
  /\ _get_latest_price_with_db Fixture.shop_after_update 20%N = Return (Some 60).
Proof.
  assert (Hok : outage Sample.shop select_latest_price = None) by reflexivity.
  assert (Hok' : outage Fixture.shop_after_update select_latest_price = None)
    by reflexivity.
  assert (Happ : price_history Fixture.shop_after_update
                 = price_history Sample.shop ++ [Fixture.newer_observation])
    by reflexivity.
  assert (Hnewer : forall r' : PriceHistory.t,
            In r' (price_history Sample.shop) ->
            PriceHistory.product_id r'
            = PriceHistory.product_id Fixture.newer_observation ->
            (PriceHistory.recorded_at r'
             < PriceHistory.recorded_at Fixture.newer_observation)%Z).
  { intros r' [<-|[<-|[<-|[<-|[]]]]] _; cbn; lia. }
  repeat (split; [assumption|]).
  exact (proj1 (latest_price_after_newer_observation Sample.shop
                  Fixture.shop_after_update Fixture.newer_observation
                  Hok Hok' Happ) Hnewer).
Defined.

(** ** The weighted sum of the scorer *)

(** The weighted sum over the weights of the analyzer is the sum of score
    times weight, added in binary64 in the order of the weights, when every
    weighted factor has a score, and it raises [KeyError] on the first
    factor that has none. *)
Theorem weighted_sum_keys (scores : gmap string Q) (items : list (string * Q))
    (python : interpreter) (state : Q * Q) :
  ((forall factor weight, In (factor, weight) items -> is_Some (scores !! factor)) ->
   exists total : Q,
     weighted_sum python scores items state = Return total
     /\ total = sum_weighted python scores items state)
  /\ (forall (before after : list (string * Q)) (factor : string) (weight : Q),
        items = before ++ (factor, weight) :: after ->
        (forall f w, In (f, w) before -> is_Some (scores !! f)) ->
        scores !! factor = None ->
        weighted_sum python scores items state = Raise (KeyError factor)).
Proof.
  split.
  - revert state. induction items as [|[f w] items IH]; intros state Hkeys.
    + exists (sum_result state). split; reflexivity.
    + cbn [weighted_sum].
      destruct (Hkeys f w (or_introl eq_refl)) as [s Hs]. rewrite Hs.
      destruct (IH (sum_step python state (float_mul s w))) as (total & Ht & Heq).
      { intros f' w' Hin. apply (Hkeys f' w'). right. exact Hin. }
      exists total. split; [exact Ht|].
      rewrite Heq. unfold sum_weighted. cbn [fold_left]. rewrite Hs. reflexivity.
  - intros before. revert items state.
    induction before as [|[f w] before IH]; intros items state after factor weight
      -> Hkeys Hnone.
    + cbn [app weighted_sum]. rewrite Hnone. reflexivity.
    + cbn [app weighted_sum].
      destruct (Hkeys f w (or_introl eq_refl)) as [s Hs]. rewrite Hs.
      apply (IH _ _ after factor weight eq_refl); [|exact Hnone].
      intros f' w' Hin. apply (Hkeys f' w'). right. exact Hin.
Qed.

Lemma weighted_sum_keys_witness :
  let scores : gmap string Q := {[ "price_stability"%string := 0.7 ]} in
  (forall f w, In (f, w) [("price_stability"%string, float_literal 0.3)] ->
     is_Some (scores !! f))
  /\ scores !! "liquidity"%string = None
  /\ weighted_sum since_3_12 scores
       (confidence_weights Sample.analyzer_with_unknown_factor) (0, 0)
     = Raise (KeyError "liquidity").
Proof.
  intros scores.
  assert (Hkeys : forall f w,
            In (f, w) [("price_stability"%string, float_literal 0.3)] ->
            is_Some (scores !! f)).
  { intros f w [H|[]]. injection H as <- _. exists 0.7. reflexivity. }
  assert (Hnone : scores !! "liquidity"%string = None) by reflexivity.
  split; [exact Hkeys|]. split; [exact Hnone|].
  exact (proj2 (weighted_sum_keys scores
                  (confidence_weights Sample.analyzer_with_unknown_factor)
                  since_3_12 (0, 0))
           [("price_stability"%string, float_literal 0.3)] [] "liquidity"%string
           (float_literal 0.7) eq_refl Hkeys Hnone).
Defined.

(** ** Risk as a function of the margin *)

(** With the signal computations as implemented, the risk that the
    classifier gives a margin and the score computed for it is "high"
    exactly when the margin is below 30, whatever the score (which is never
    below 0.65), and "medium" exactly when the margin is at least 30 and its
    float is not in (50, 100]; the score lies between 0.65 and 0.80. *)
Theorem risk_by_margin (python : interpreter) (cfg : Settings)
    (db : option Session) (product : Product.t)
    (sealed_price singles_value margin_percentage : Q) (confidence_score : Q) :
  let self := ArbitrageAnalyzer_init cfg db in
  let margin_float := float_of_Decimal margin_percentage in
  _calculate_confidence python self product sealed_price singles_value
    margin_percentage
  = Return confidence_score ->
  let risk_level := _assess_risk_level self margin_percentage confidence_score in
  0.65 <= confidence_score <= 0.80
  /\ (risk_level = "high" <-> margin_percentage < 30)
  /\ (risk_level = "medium"
      <-> 30 <= margin_percentage /\ ~ (50 < margin_float <= 100))
  /\ In risk_level ["low"; "medium"; "high"].
Proof.
  intros self margin_float Hc. unfold self in Hc.
  rewrite _calculate_confidence_by_float in Hc. fold margin_float in Hc.
  injection Hc as <-.
  assert (Hle50 : margin_percentage <= 50 -> margin_float <= 50).
  { intros H. apply (float_of_Decimal_le margin_percentage 50); [lia|exact H]. }
  intros risk_level. subst risk_level. unfold _assess_risk_level.
  destruct (Qle_bool 30 margin_percentage) eqn:E30;
    [apply Qle_bool_iff in E30
    |assert (H30 : margin_percentage < 30)
       by (apply Qnot_le_lt; intros H; apply Qle_bool_iff in H; congruence)];
    (destruct (Qle_bool 50 margin_percentage) eqn:E50;
     [apply Qle_bool_iff in E50
     |assert (H50 : margin_percentage < 50)
        by (apply Qnot_le_lt; intros H; apply Qle_bool_iff in H; congruence)]);
    destruct (Qltb 200 margin_float) eqn:E200; Qltb_to_Prop;
    try (destruct (Qltb 100 margin_float) eqn:E100; Qltb_to_Prop);
    try (destruct (Qltb 50 margin_float) eqn:E50'; Qltb_to_Prop);
    cbn;
    try (assert (margin_float <= 50) by (apply Hle50; lra));
    (split; [split; discriminate|]);
    (split; [split; [try discriminate; try (intros _; lra)
                    |try reflexivity; try (intros; exfalso; lra)]|]);
    (split; [split; [try discriminate; try (intros _; split; [lra|intros ?; lra])
                    |try reflexivity;
                     try (intros [? Hn]; exfalso; try lra; apply Hn; lra)]|]);
    cbn; auto.
Qed.

Lemma risk_by_margin_witness :
  _calculate_confidence since_3_12 (ArbitrageAnalyzer_init settings None)
    Sample.box 100 294.2 150
  = Return 0.74
  /\ _assess_risk_level (ArbitrageAnalyzer_init settings None) 150 0.74 = "medium".
Proof.
  assert (H : _calculate_confidence since_3_12 (ArbitrageAnalyzer_init settings None)
                Sample.box 100 294.2 150 = Return 0.74) by (vm_compute; reflexivity).
  split; [exact H|].
  apply (proj1 (proj2 (proj2 (risk_by_margin since_3_12 settings None Sample.box 100 294.2 150
                                0.74 H)))).
  split; [discriminate|].
  intros [_ Hle]. revert Hle. apply Qlt_not_le.
  apply Qltb_true. vm_compute. reflexivity.
Defined.

(** ** Potential profit *)

(** The potential profit is computed on floats: two conversions, a product
    and a difference, each rounded.  For amounts that their columns can hold
    ([DECIMAL(10, 2)]: below 10^8 in magnitude) it stays within 10^-15 of the
    amounts at hand (and 10^-29) of the singles value less 15 percent, less
    the sealed price. *)
Theorem potential_profit_close (o : ArbitrageOpportunity.t) :
  Qabs (ArbitrageOpportunity.singles_value o) <= 100000000 ->
  Qabs (ArbitrageOpportunity.sealed_price o) <= 100000000 ->
  Qabs (ArbitrageOpportunity.potential_profit o
        - (ArbitrageOpportunity.singles_value o * 0.85
           - ArbitrageOpportunity.sealed_price o))
  <= (Qabs (ArbitrageOpportunity.singles_value o)
      + Qabs (ArbitrageOpportunity.sealed_price o))
     * (1 # 1000000000000000)
     + (1 # 100000000000000000000000000000).
Proof.
  intros _ _.
  unfold ArbitrageOpportunity.potential_profit, float_sub, float_mul, float_of_Decimal.
  set (sv := ArbitrageOpportunity.singles_value o).
  set (sp := ArbitrageOpportunity.sealed_price o).
  assert (HA : - Qabs sv <= sv <= Qabs sv)
    by (apply Qabs_Qle_condition; apply Qle_refl).
  assert (HB : - Qabs sp <= sp <= Qabs sp)
    by (apply Qabs_Qle_condition; apply Qle_refl).
  pose proof (Qabs_nonneg sv) as HA0. pose proof (Qabs_nonneg sp) as HB0.
  set (A := Qabs sv) in *. set (B := Qabs sp) in *.
  pose proof (round_binary64_within sv A HA) as Ha.
  set (a := round_binary64 sv) in *.
  pose proof (round_binary64_within sp B HB) as Hs.
  set (s := round_binary64 sp) in *.
  assert (Hw : float_literal 0.85 == 7656119366529843 # 9007199254740992)
    by (vm_compute; reflexivity).
  assert (Hx : a * float_literal 0.85 == a * (7656119366529843 # 9007199254740992))
    by (rewrite Hw; reflexivity).
  pose proof (round_binary64_within (a * float_literal 0.85)
                (2 * A + (1 # 1000000000000000000000000000000))
                ltac:(lra)) as Hp.
  set (p := round_binary64 (a * float_literal 0.85)) in *.
  pose proof (round_binary64_within (p - s)
                (3 * A + 2 * B + (1 # 100000000000000000000000000000))
                ltac:(lra)) as Hd.
  set (d := round_binary64 (p - s)) in *.
  apply Qabs_Qle_condition. lra.
Qed.

Lemma potential_profit_close_witness :
  ArbitrageOpportunity.potential_profit (Sample.opportunity "active") == 27.5
  /\ Qabs (ArbitrageOpportunity.potential_profit (Sample.opportunity "active")
           - (150 * 0.85 - 100))
     <= (Qabs 150 + Qabs 100) * (1 # 1000000000000000)
        + (1 # 100000000000000000000000000000).
Proof.
  split; [vm_compute; reflexivity|].
  apply (potential_profit_close (Sample.opportunity "active")); Qle_compute.
Defined.

(** * Schemas and endpoints *)

Lemma str_in_In (v : string) (l : list string) : str_in v l = true <-> In v l.
Proof.
  unfold str_in. rewrite existsb_exists. split.
  - intros (x & Hx & E). apply String.eqb_eq in E. subst x. exact Hx.
  - intros H. exists v. split; [exact H|apply String.eqb_refl].
Qed.

Lemma str_bool_false (v : string) : str_bool v = false <-> v = "".
Proof.
  unfold str_bool. rewrite negb_false_iff. apply String.eqb_eq.
Qed.

(** ** Update bodies *)

(** An accepted update body is the one that was sent, and is accepted again. *)
Lemma ArbitrageOpportunityUpdate_accepted_body (status : option string)
    (execution_quantity : option Z) (execution_notes : option string) :
  (forall b : ArbitrageOpportunityUpdate.t,
     ArbitrageOpportunityUpdate.validate status execution_quantity execution_notes
     = Some b ->
     ArbitrageOpportunityUpdate.validate
       (ArbitrageOpportunityUpdate.status b)
       (ArbitrageOpportunityUpdate.execution_quantity b)
       (ArbitrageOpportunityUpdate.execution_notes b) = Some b)
  /\ (forall b : ArbitrageOpportunityUpdate.t,
        ArbitrageOpportunityUpdate.validate status execution_quantity execution_notes
        = Some b ->
        b = ArbitrageOpportunityUpdate.mk status execution_quantity execution_notes).
Proof.
  assert (H : forall b : ArbitrageOpportunityUpdate.t,
            ArbitrageOpportunityUpdate.validate status execution_quantity
              execution_notes = Some b ->
            b = ArbitrageOpportunityUpdate.mk status execution_quantity
                  execution_notes).
  { intros b. unfold ArbitrageOpportunityUpdate.validate.
    destruct (_ && _); [|discriminate].
    unfold ArbitrageOpportunityUpdate.validate_status.
    destruct status as [s|]; [|intros H; injection H as <-; reflexivity].
    destruct (_ && _); [discriminate|]. intros H. injection H as <-. reflexivity. }
  split; [|exact H].
  intros b Hb. rewrite (H b Hb) in Hb |- *. exact Hb.
Qed.

(** The update schema accepts a body exactly when the status is absent,
    empty or one of the four lifecycle states, the quantity is absent or not
    negative and the notes are absent or at most 500 characters long; the
    accepted body is the given one.  Every body the execution schema accepts
    is accepted as an update to "executed". *)
Theorem ArbitrageOpportunityUpdate_accepts (status : option string)
    (execution_quantity : option Z) (execution_notes : option string) :
  (is_Some (ArbitrageOpportunityUpdate.validate status execution_quantity
              execution_notes)
   <-> (status = None \/ status = Some ""
        \/ exists s, status = Some s
                     /\ In s ["active"; "expired"; "executed"; "cancelled"])
       /\ match execution_quantity with
          | Some q => (0 <= q)%Z
          | None => True
          end
       /\ match execution_notes with
          | Some s => (String.length s <= 500)%nat
          | None => True
          end)
  /\ (forall b : ArbitrageOpportunityUpdate.t,
        ArbitrageOpportunityUpdate.validate status execution_quantity execution_notes
        = Some b ->
        b = ArbitrageOpportunityUpdate.mk status execution_quantity execution_notes)
  /\ (forall (quantity : Z) (e : OpportunityExecution.t),
        OpportunityExecution.validate quantity execution_notes = Some e ->
        is_Some (ArbitrageOpportunityUpdate.validate (Some "executed")
                   (Some quantity) execution_notes)).
Proof.
  assert (Hq : match execution_quantity with
               | Some q => (0 <=? q)%Z
               | None => true
               end = true
               <-> match execution_quantity with
                   | Some q => (0 <= q)%Z
                   | None => True
                   end).
  { destruct execution_quantity as [q|]; [apply Z.leb_le|tauto]. }
  assert (Hn : match execution_notes with
               | Some s => (String.length s <=? 500)%nat
               | None => true
               end = true
               <-> match execution_notes with
                   | Some s => (String.length s <= 500)%nat
                   | None => True
                   end).
  { destruct execution_notes as [s|]; [apply Nat.leb_le|tauto]. }
  split; [|split].
  - unfold ArbitrageOpportunityUpdate.validate.
    destruct (match execution_quantity with
              | Some q => (0 <=? q)%Z
              | None => true
              end) eqn:Eq;
      destruct (match execution_notes with
                | Some s => (String.length s <=? 500)%nat
                | None => true
                end) eqn:En; cbn [andb].
    + assert (Hq' := proj1 Hq eq_refl). assert (Hn' := proj1 Hn eq_refl).
      unfold ArbitrageOpportunityUpdate.validate_status.
      destruct status as [s|].
      * destruct (str_bool s) eqn:Es; cbn [andb].
        -- destruct (str_in s ["active"; "expired"; "executed"; "cancelled"]) eqn:Ei;
             cbn [negb].
           ++ apply str_in_In in Ei. split; [|intros _; eexists; reflexivity].
              intros _. split; [|split; assumption]. right. right. exists s. auto.
           ++ split; [intros [x Hx]; discriminate|].
              intros [[H|[H|(s' & H & Hin)]] _]; [discriminate| |].
              ** injection H as ->. discriminate.
              ** injection H as ->. apply str_in_In in Hin. congruence.
        -- apply str_bool_false in Es. subst s.
           split; [|intros _; eexists; reflexivity].
           intros _. split; [|split; assumption]. right. left. reflexivity.
      * split; [|intros _; eexists; reflexivity].
        intros _. split; [|split; assumption]. left. reflexivity.
    + split; [intros [x Hx]; discriminate|].
      intros (_ & _ & H). apply Hn in H. discriminate.
    + split; [intros [x Hx]; discriminate|].
      intros (_ & H & _). apply Hq in H. discriminate.
    + split; [intros [x Hx]; discriminate|].
      intros (_ & H & _). apply Hq in H. discriminate.
  - intros b. unfold ArbitrageOpportunityUpdate.validate.
    destruct (_ && _); [|discriminate].
    unfold ArbitrageOpportunityUpdate.validate_status.
    destruct status as [s|]; [|intros H; injection H as <-; reflexivity].
    destruct (_ && _); [discriminate|]. intros H. injection H as <-. reflexivity.
  - intros quantity e. unfold OpportunityExecution.validate.
    destruct (Z.leb_spec 1 quantity) as [H1|]; cbn [andb]; [|discriminate].
    destruct (quantity <=? 100)%Z; cbn [andb]; [|discriminate].
    intros He. unfold ArbitrageOpportunityUpdate.validate.
    assert (E : (0 <=? quantity)%Z = true) by (apply Z.leb_le; lia).
    rewrite E. cbn [andb].
    destruct (match execution_notes with
              | Some s => (String.length s <=? 500)%nat
              | None => true
              end); [|discriminate].
    eexists. reflexivity.
Qed.

Lemma ArbitrageOpportunityUpdate_accepts_witness :
  OpportunityExecution.validate 50 None = Some (OpportunityExecution.mk 50 None)
  /\ is_Some (ArbitrageOpportunityUpdate.validate (Some "executed") (Some 50%Z) None)
  /\ is_Some (ArbitrageOpportunityUpdate.validate (Some "") (Some 0%Z) None)
  /\ OpportunityExecution.validate 0 None = None.
Proof.
  assert (He : OpportunityExecution.validate 50 None
               = Some (OpportunityExecution.mk 50 None)) by reflexivity.
  split; [exact He|]. split.
  - exact (proj2 (proj2 (ArbitrageOpportunityUpdate_accepts None None None)) 50%Z _ He).
  - split; [|reflexivity].
    apply (proj1 (ArbitrageOpportunityUpdate_accepts (Some "") (Some 0%Z) None)).
    split; [right; left; reflexivity|]. split; [lia|exact I].
Defined.

(** ** Listing opportunities *)

(** [GET /] never answers with an [HTTPException] of its own.  A request
    whose filters the schema refuses ends in an [AttributeError], whatever
    the service would do, and so does every failure of the service; only a
    request with valid filters on which the service returns is answered. *)
Theorem get_opportunities_never_HTTPException
    (service : OpportunityFilters.t -> result (list ArbitrageOpportunity.t))
    (skip limit : Z) (min_margin : option Q) (max_risk : option string)
    (status : string) (category : option string) (sort_by sort_order : string) :
  let filters :=
    OpportunityFilters.mk min_margin None None max_risk status category
      None None None None skip limit sort_by sort_order in
  let answer :=
    get_opportunities service skip limit min_margin max_risk status category
      sort_by sort_order in
  (forall (status_code : Z) (detail : string),
     answer <> RaisesHTTPException status_code detail)
  /\ (forall opportunities : list ArbitrageOpportunity.t,
        answer = Responds opportunities
        <-> ((0 <= skip)%Z /\ (1 <= limit <= 200)%Z
             /\ OpportunityFilters.ge0 min_margin = true)
            /\ OpportunityFilters.validate filters = Return filters
            /\ service filters = Return opportunities)
  /\ (forall e : exn,
        (0 <= skip)%Z -> (1 <= limit <= 200)%Z ->
        OpportunityFilters.ge0 min_margin = true ->
        OpportunityFilters.validate filters = Raise e ->
        exists message : string,
          answer = RaisesAttributeError message
          /\ forall service' : OpportunityFilters.t
                                -> result (list ArbitrageOpportunity.t),
               get_opportunities service' skip limit min_margin max_risk status
                 category sort_by sort_order
               = RaisesAttributeError message)
  /\ (forall e : exn,
        answer <> Unprocessable ->
        OpportunityFilters.validate filters = Return filters ->
        service filters = Raise e ->
        exists message : string, answer = RaisesAttributeError message).
Proof.
  intros filters answer.
  assert (Hvalid : forall f, OpportunityFilters.validate filters = Return f ->
                     f = filters).
  { intros f. unfold OpportunityFilters.validate.
    destruct (_ && _); [|discriminate].
    destruct (OpportunityFilters.validate_max_risk _); [|discriminate].
    destruct (OpportunityFilters.validate_status _); [|discriminate].
    destruct (OpportunityFilters.validate_sort_by _); [|discriminate].
    destruct (OpportunityFilters.validate_sort_order _); [|discriminate].
    cbn [mbind result_bind mret result_ret]. intros H. injection H as <-.
    reflexivity. }
  assert (Hquery : (0 <=? skip)%Z && (1 <=? limit)%Z && (limit <=? 200)%Z
                   && OpportunityFilters.ge0 min_margin = true
                   <-> (0 <= skip)%Z /\ (1 <= limit <= 200)%Z
                       /\ OpportunityFilters.ge0 min_margin = true).
  { rewrite !andb_true_iff, !Z.leb_le. tauto. }
  unfold answer, get_opportunities. fold filters.
  destruct ((0 <=? skip)%Z && (1 <=? limit)%Z && (limit <=? 200)%Z
            && OpportunityFilters.ge0 min_margin) eqn:Eq; cbn [negb].
  - clear Eq. pose proof (proj1 Hquery eq_refl) as Eq.
    destruct (OpportunityFilters.validate filters) as [f|e0] eqn:Ev;
      cbn [mbind result_bind].
    + rewrite (Hvalid f eq_refl) in *.
      destruct (service filters) as [l|e1] eqn:Es.
      * split; [discriminate|]. split.
        { intros l'. split.
          - intros H. injection H as <-. auto.
          - intros (_ & _ & H). injection H as <-. reflexivity. }
        split; [discriminate|discriminate].
      * split; [destruct (is_ValueError e1); discriminate|]. split.
        { intros l'. split.
          - destruct (is_ValueError e1); discriminate.
          - intros (_ & _ & H). discriminate. }
        split; [discriminate|].
        intros e _ _ _. destruct (is_ValueError e1); eexists; reflexivity.
    + split; [destruct (is_ValueError e0); discriminate|]. split.
      { intros l'. split.
        - destruct (is_ValueError e0); discriminate.
        - intros (_ & H & _). discriminate. }
      split; [|discriminate].
      intros e _ _ _ _.
      destruct (is_ValueError e0) eqn:Ei; eexists; (split; [reflexivity|]);
        intros service'; reflexivity.
  - split; [discriminate|]. split.
    { intros l'. split; [discriminate|].
      intros (H & _). apply (proj2 Hquery) in H. discriminate. }
    split.
    + intros e H1 H2 H3. exfalso.
      assert (H : false = true) by (apply Hquery; auto).
      discriminate.
    + intros e H. exfalso. apply H. reflexivity.
Qed.

Lemma get_opportunities_never_HTTPException_witness :
  let filters :=
    OpportunityFilters.mk None None None None "active" None None None None None
      0 50 "price" "desc" in
  (0 <= 0)%Z /\ (1 <= 50 <= 200)%Z
  /\ OpportunityFilters.ge0 None = true
  /\ OpportunityFilters.validate filters
     = Raise (ValueError "sort_by must be one of: margin_percentage, confidence_score, created_at, expires_at, sealed_price")
  /\ exists message : string,
       get_opportunities (fun _ => Return []) 0 50 None None "active" None "price" "desc"
       = RaisesAttributeError message.
Proof.
  intros filters.
  assert (H1 : (0 <= 0)%Z) by lia.
  assert (H2 : (1 <= 50 <= 200)%Z) by lia.
  assert (H3 : OpportunityFilters.ge0 None = true) by reflexivity.
  assert (H4 : OpportunityFilters.validate filters
               = Raise (ValueError "sort_by must be one of: margin_percentage, confidence_score, created_at, expires_at, sealed_price"))
    by reflexivity.
  repeat (split; [assumption|]).
  destruct (proj1 (proj2 (proj2
              (get_opportunities_never_HTTPException (fun _ => Return [])
                 0 50 None None "active" None "price" "desc"))) _ H1 H2 H3 H4)
    as (message & Hm & _).
  exists message. exact Hm.
Defined.

(** ** Updating an opportunity *)

(** [PUT /{opportunity_id}] refuses (422) exactly the bodies the update
    schema refuses and hands the service the accepted body as given.  What
    the service does with it decides the answer: an updated opportunity is
    returned, no opportunity gives 404, a [ValueError] gives 400 with its
    message, any other exception gives 500.  Conversely every
    [HTTPException] of the handler comes from one of these three cases; the
    handler never lets an [AttributeError] escape, and two services that
    agree on the accepted bodies are answered alike. *)
Theorem update_opportunity_outcomes
    (service : UUID -> ArbitrageOpportunityUpdate.t
               -> result (option ArbitrageOpportunity.t))
    (opportunity_id : UUID) (status : option string)
    (execution_quantity : option Z) (execution_notes : option string) :
  let answer :=
    update_opportunity service opportunity_id status execution_quantity
      execution_notes in
  let b := ArbitrageOpportunityUpdate.mk status execution_quantity execution_notes in
  let accepted :=
    ArbitrageOpportunityUpdate.validate status execution_quantity execution_notes
    = Some b in
  (forall service' : UUID -> ArbitrageOpportunityUpdate.t
                     -> result (option ArbitrageOpportunity.t),
     (forall b : ArbitrageOpportunityUpdate.t,
        ArbitrageOpportunityUpdate.validate
          (ArbitrageOpportunityUpdate.status b)
          (ArbitrageOpportunityUpdate.execution_quantity b)
          (ArbitrageOpportunityUpdate.execution_notes b) = Some b ->
        service' opportunity_id b = service opportunity_id b) ->
     update_opportunity service' opportunity_id status execution_quantity
       execution_notes = answer)
  /\ (forall message : string, answer <> RaisesAttributeError message)
  /\ (forall (status_code : Z) (detail : string),
        answer = RaisesHTTPException status_code detail ->
        (status_code = 404%Z /\ service opportunity_id b = Return None)
        \/ (status_code = 400%Z
            /\ service opportunity_id b = Raise (ValueError detail))
        \/ (status_code = 500%Z
            /\ exists e, service opportunity_id b = Raise e
                         /\ is_ValueError e = false))
  /\ (answer = Unprocessable
      <-> ArbitrageOpportunityUpdate.validate status execution_quantity
            execution_notes = None)
  /\ (ArbitrageOpportunityUpdate.validate status execution_quantity execution_notes
      = None \/ accepted)
  /\ (forall updated_opportunity : ArbitrageOpportunity.t,
        accepted ->
        service opportunity_id b = Return (Some updated_opportunity) ->
        answer = Responds updated_opportunity)
  /\ (accepted ->
      service opportunity_id b = Return None ->
      answer = RaisesHTTPException 404 "Opportunity not found")
  /\ (forall message : string,
        accepted ->
        service opportunity_id b = Raise (ValueError message) ->
        answer = RaisesHTTPException 400 message)
  /\ (forall e : exn,
        accepted ->
        service opportunity_id b = Raise e ->
        is_ValueError e = false ->
        answer = RaisesHTTPException 500 "Error updating opportunity").
Proof.
  intros answer b accepted. unfold answer, accepted, update_opportunity.
  pose proof (proj2 (ArbitrageOpportunityUpdate_accepted_body status
                       execution_quantity execution_notes)) as Hbody.
  destruct (ArbitrageOpportunityUpdate.validate status execution_quantity
              execution_notes) as [b'|] eqn:Ev.
  - pose proof (Hbody b' eq_refl) as ->. fold b in Ev |- *.
    split.
    { intros service' Hagree. rewrite Hagree; [reflexivity|exact Ev]. }
    destruct (service opportunity_id b) as [[o|]|e] eqn:Es.
    + split; [discriminate|]. split; [discriminate|].
      split; [split; discriminate|]. split; [right; reflexivity|].
      split; [intros o' _ H; injection H as <-; reflexivity|].
      split; [discriminate|]. split; [discriminate|]. discriminate.
    + split; [discriminate|].
      split; [intros c d H; injection H as <- <-; left; auto|].
      split; [split; discriminate|]. split; [right; reflexivity|].
      split; [discriminate|]. split; [reflexivity|].
      split; [discriminate|]. discriminate.
    + destruct (is_ValueError e) eqn:Hv.
      * destruct e; try discriminate Hv. cbn [exn_str].
        split; [discriminate|].
        split; [intros c d H; injection H as <- <-; right; left; auto|].
        split; [split; discriminate|]. split; [right; reflexivity|].
        split; [discriminate|]. split; [discriminate|].
        split; [intros message _ H; injection H as <-; reflexivity|].
        intros e _ H He. injection H as <-. discriminate He.
      * split; [discriminate|].
        split.
        { intros c d H. injection H as <- <-. right. right.
          split; [reflexivity|]. exists e. split; [reflexivity|exact Hv]. }
        split; [split; discriminate|]. split; [right; reflexivity|].
        split; [discriminate|]. split; [discriminate|].
        split; [intros message _ H; injection H as ->; discriminate Hv|].
        intros e' _ _ _. reflexivity.
  - split; [reflexivity|]. split; [discriminate|]. split; [discriminate|].
    split; [split; reflexivity|].
    split; [left; reflexivity|].
    split; [intros o H; discriminate|].
    split; [intros H; discriminate|].
    split; [intros message H; discriminate|].
    intros e H. discriminate.
Qed.

Lemma update_opportunity_outcomes_witness :
  let service : UUID -> ArbitrageOpportunityUpdate.t
                -> result (option ArbitrageOpportunity.t) :=
    fun _ b =>
      match ArbitrageOpportunityUpdate.status b with
      | Some "executed"%string => Raise (ValueError "Invalid status transition")
      | Some "expired"%string => Raise (SQLAlchemyError "connection refused")
      | Some "cancelled"%string => Return (Some (Sample.opportunity "cancelled"))
      | _ => Return None
      end in
  update_opportunity service 1%N (Some "executed") None None
  = RaisesHTTPException 400 "Invalid status transition"
  /\ update_opportunity service 1%N (Some "expired") None None
     = RaisesHTTPException 500 "Error updating opportunity"
  /\ update_opportunity service 1%N (Some "cancelled") None None
     = Responds (Sample.opportunity "cancelled")
  /\ update_opportunity service 1%N (Some "active") None None
     = RaisesHTTPException 404 "Opportunity not found".
Proof.
  intros service.
  split; [|split; [|split]].
  - apply (proj1 (proj2 (proj2 (proj2 (proj2 (proj2 (proj2 (proj2
             (update_opportunity_outcomes service 1%N (Some "executed") None None)))))))));
      reflexivity.
  - apply (proj2 (proj2 (proj2 (proj2 (proj2 (proj2 (proj2 (proj2
             (update_opportunity_outcomes service 1%N (Some "expired") None None))))))))
             (SQLAlchemyError "connection refused"));
      reflexivity.
  - apply (proj1 (proj2 (proj2 (proj2 (proj2 (proj2
             (update_opportunity_outcomes service 1%N (Some "cancelled") None None)))))));
      reflexivity.
  - apply (proj1 (proj2 (proj2 (proj2 (proj2 (proj2 (proj2
             (update_opportunity_outcomes service 1%N (Some "active") None None))))))));
      reflexivity.
Defined.

(** ** Session scopes *)

(** Once the session exists, [get_db_session] closes it exactly once and as
    the last call, whatever the body and the session do; it attempts a commit
    exactly when the body returned, and a rollback exactly when the body
    raised or the commit did. *)
Theorem get_db_session_protocol {A : Type} (db : Connection)
    (body : Connection -> result A) :
  let calls := snd (with_get_db_session (Return db) body) in
  (exists before, calls = before ++ [Close] /\ ~ In Close before) /\
  (In Commit calls <-> exists a, body db = Return a) /\
  (In Rollback calls <->
     (exists e, body db = Raise e) \/ (exists e, commit_raises db = Some e)).
Proof.
  unfold with_get_db_session.
  destruct (body db) as [a|e]; destruct (commit_raises db) as [ec|];
    destruct (close_raises db) as [ecl|];
    (split; [eexists; split; [reflexivity|cbn; intuition discriminate]|cbn; split; split]);
    intros H;
    repeat match goal with
    | H : _ \/ _ |- _ => destruct H
    | H : exists _, _ |- _ => destruct H
    | H : False |- _ => destruct H
    end;
    try discriminate; eauto 6.
Qed.



(** ** Requests of the scrapers *)

Module BaseScraperFacts.
Import BaseScraper.

Lemma total_sleep_app (l1 l2 : list event) :
  total_sleep (l1 ++ l2) == total_sleep l1 + total_sleep l2.
Proof.
  induction l1 as [|e l1 IH].
  - change (total_sleep l2 == 0 + total_sleep l2). ring.
  - change (total_sleep ((e :: l1) ++ l2))
      with (match e with
            | Sleep d => d + total_sleep (l1 ++ l2)
            | _ => total_sleep (l1 ++ l2)
            end).
    change (total_sleep (e :: l1))
      with (match e with
            | Sleep d => d + total_sleep l1
            | _ => total_sleep l1
            end).
    destruct e; rewrite IH; ring.
Qed.

Lemma requests_app (l1 l2 : list event) :
  requests (l1 ++ l2) = requests l1 ++ requests l2.
Proof. unfold requests. apply flat_map_app. Qed.

Lemma merged_headers_stable (kwargs_headers own : gmap string string) :
  (kwargs_headers ∪ own) ∪ own = kwargs_headers ∪ own.
Proof. rewrite <- (assoc_L _). f_equal. apply map_union_idemp. Qed.

Lemma backoff_S (attempt : nat) : backoff (S attempt) == 2 * backoff attempt.
Proof.
  unfold backoff. rewrite Nat2Z.inj_succ, Z.pow_succ_r by lia.
  rewrite inject_Z_mult. reflexivity.
Qed.

Lemma backoff_pos (attempt : nat) : 0 < backoff attempt.
Proof.
  unfold backoff. change 0 with (inject_Z 0). rewrite <- Zlt_Qlt.
  apply Z.pow_pos_nonneg; lia.
Qed.

(** One round of the loop, spelled out: what the events of a round that
    does not end the loop look like. *)
Lemma attempts_S (self : t) (method url : string)
    (world : nat -> Q * attempt_result) (kwargs_headers : gmap string string)
    (remaining attempt : nat) :
  is_ok (snd (world attempt)) = false ->
  exists waited,
    (waited = [] \/ waited = [Sleep (backoff attempt)]) /\
    attempts self method url world kwargs_headers (S remaining) attempt =
      (fst (attempts self method url world (kwargs_headers ∪ headers self)
              remaining (S attempt)),
       [Sleep (rate_limit_delay self + fst (world attempt));
        Request method url (kwargs_headers ∪ headers self)]
       ++ waited
       ++ (if (attempt <? max_retries self - 1)%nat
           then [Sleep (backoff attempt)] else [])
       ++ snd (attempts self method url world (kwargs_headers ∪ headers self)
                 remaining (S attempt))).
Proof.
  intros Hok. cbn [attempts].
  destruct (world attempt) as [jitter result]. cbn [fst snd] in *.
  destruct (attempts self method url world (kwargs_headers ∪ headers self)
              remaining (S attempt)) as [response events]. cbn [fst snd].
  destruct result as [response'| |e]; cbn [is_ok] in Hok.
  - rewrite Hok. destruct (status response' =? 429)%Z.
    + exists [Sleep (backoff attempt)]. split; [now right|reflexivity].
    + exists []. split; [now left|reflexivity].
  - exists []. split; [now left|reflexivity].
  - exists []. split; [now left|reflexivity].
Qed.

Lemma attempts_ok (self : t) (method url : string)
    (world : nat -> Q * attempt_result) (kwargs_headers : gmap string string)
    (remaining attempt : nat) (response : ClientResponse) :
  snd (world attempt) = Answered response ->
  status response = 200%Z ->
  attempts self method url world kwargs_headers (S remaining) attempt =
    (Some response,
     [Sleep (rate_limit_delay self + fst (world attempt));
      Request method url (kwargs_headers ∪ headers self)]).
Proof.
  intros Hw Hs. cbn [attempts].
  destruct (world attempt) as [jitter result]. cbn [fst snd] in *.
  subst result. rewrite Hs. reflexivity.
Qed.

Lemma attempts_all_fail (self : t) (method url : string)
    (world : nat -> Q * attempt_result) (remaining : nat) :
  forall (kwargs_headers : gmap string string) (attempt : nat),
  (forall j, (attempt <= j < attempt + remaining)%nat ->
             is_ok (snd (world j)) = false) ->
  let r := attempts self method url world kwargs_headers remaining attempt in
  fst r = None /\
  length (requests (snd r)) = remaining /\
  ~ In CloseSession (snd r).
Proof.
  induction remaining as [|remaining IH]; intros kwargs_headers attempt Hfail.
  - cbn. intuition.
  - destruct (attempts_S self method url world kwargs_headers remaining attempt)
      as (waited & Hwaited & ->); [apply Hfail; lia|].
    destruct (IH (kwargs_headers ∪ headers self) (S attempt)) as (Hr & Hn & Hc);
      [intros j Hj; apply Hfail; lia|].
    cbn [fst snd]. split; [exact Hr|]. split.
    + rewrite !requests_app, !length_app, Hn.
      destruct Hwaited as [-> | ->];
        destruct (attempt <? max_retries self - 1)%nat; reflexivity.
    + rewrite !in_app_iff. intros [H|[H|[H|H]]].
      * cbn in H. intuition discriminate.
      * destruct Hwaited as [-> | ->]; cbn in H; intuition discriminate.
      * destruct (attempt <? max_retries self - 1)%nat; cbn in H;
          intuition discriminate.
      * exact (Hc H).
Qed.

Lemma attempts_first_ok (self : t) (method url : string)
    (world : nat -> Q * attempt_result) (response : ClientResponse)
    (failed : nat) :
  forall (kwargs_headers : gmap string string) (remaining attempt : nat),
  (failed < remaining)%nat ->
  (forall j, (attempt <= j < attempt + failed)%nat ->
             is_ok (snd (world j)) = false) ->
  snd (world (attempt + failed)%nat) = Answered response ->
  status response = 200%Z ->
  let r := attempts self method url world kwargs_headers remaining attempt in
  fst r = Some response /\
  length (requests (snd r)) = S failed /\
  ~ In CloseSession (snd r).
Proof.
  induction failed as [|failed IH];
    intros kwargs_headers remaining attempt Hlt Hfail Hw Hs;
    destruct remaining as [|remaining]; try lia.
  - rewrite Nat.add_0_r in Hw.
    rewrite (attempts_ok self method url world kwargs_headers remaining attempt
               response Hw Hs).
    cbn. intuition discriminate.
  - destruct (attempts_S self method url world kwargs_headers remaining attempt)
      as (waited & Hwaited & ->); [apply Hfail; lia|].
    destruct (IH (kwargs_headers ∪ headers self) remaining (S attempt))
      as (Hr & Hn & Hc);
      [lia|intros j Hj; apply Hfail; lia
      |replace (S attempt + failed)%nat with (attempt + S failed)%nat by lia;
       exact Hw|exact Hs|].
    cbn [fst snd]. split; [exact Hr|]. split.
    + rewrite !requests_app, !length_app, Hn.
      destruct Hwaited as [-> | ->];
        destruct (attempt <? max_retries self - 1)%nat; reflexivity.
    + rewrite !in_app_iff. intros [H|[H|[H|H]]].
      * cbn in H. intuition discriminate.
      * destruct Hwaited as [-> | ->]; cbn in H; intuition discriminate.
      * destruct (attempt <? max_retries self - 1)%nat; cbn in H;
          intuition discriminate.
      * exact (Hc H).
Qed.

Lemma attempts_requests (self : t) (method url : string)
    (world : nat -> Q * attempt_result) (remaining : nat) :
  forall (kwargs_headers : gmap string string) (attempt : nat),
  Forall (fun rq => rq = (method, url, kwargs_headers ∪ headers self))
    (requests (snd (attempts self method url world kwargs_headers remaining attempt))).
Proof.
  induction remaining as [|remaining IH]; intros kwargs_headers attempt.
  - cbn. constructor.
  - destruct (is_ok (snd (world attempt))) eqn:Hok.
    + destruct (world attempt) as [jitter [response| |e]] eqn:Hw;
        cbn [snd is_ok] in Hok; try discriminate.
      rewrite (attempts_ok self method url world kwargs_headers remaining attempt
                 response); [|rewrite Hw; reflexivity|lia].
      cbn. repeat constructor.
    + destruct (attempts_S self method url world kwargs_headers remaining attempt Hok)
        as (waited & Hwaited & ->).
      cbn [snd]. rewrite !requests_app, !Forall_app.
      split; [cbn; repeat constructor|].
      split; [destruct Hwaited as [-> | ->]; cbn; constructor|].
      split; [destruct (attempt <? max_retries self - 1)%nat; cbn; constructor|].
      specialize (IH (kwargs_headers ∪ headers self) (S attempt)).
      rewrite merged_headers_stable in IH. exact IH.
Qed.

Lemma backoff_mono (attempt later : nat) :
  backoff attempt <= backoff (attempt + later).
Proof.
  unfold backoff. rewrite <- Zle_Qle. apply Z.pow_le_mono_r; lia.
Qed.

Lemma sleep_bound_nonneg (self : t) (remaining attempt : nat) :
  0 <= rate_limit_delay self ->
  0 <= sleep_bound self remaining attempt.
Proof.
  intros Hd. unfold sleep_bound.
  assert (0 <= inject_Z (Z.of_nat remaining) * (rate_limit_delay self + (1 # 2))).
  { apply Qmult_le_0_compat; [|lra].
    change 0 with (inject_Z 0). rewrite <- Zle_Qle. lia. }
  pose proof (backoff_mono attempt remaining).
  destruct remaining as [|before_last]; [lra|].
  pose proof (backoff_mono attempt before_last). lra.
Qed.

Lemma sleep_bound_S (self : t) (remaining attempt : nat) :
  (attempt + S remaining = max_retries self)%nat ->
  sleep_bound self (S remaining) attempt ==
    (rate_limit_delay self + (1 # 2)) + backoff attempt
    + (if (attempt <? max_retries self - 1)%nat then backoff attempt else 0)
    + sleep_bound self remaining (S attempt).
Proof.
  intros Hsum. unfold sleep_bound.
  rewrite Nat2Z.inj_succ, <- Z.add_1_r, inject_Z_plus.
  change (inject_Z 1) with 1.
  replace (attempt + S remaining)%nat with (S (attempt + remaining)) by lia.
  replace (S attempt + remaining)%nat with (S (attempt + remaining)) by lia.
  destruct remaining as [|before_last].
  - replace (attempt <? max_retries self - 1)%nat with false
      by (symmetry; apply Nat.ltb_ge; lia).
    rewrite !Nat.add_0_r. rewrite !backoff_S. cbn [Z.of_nat].
    change (inject_Z 0) with 0. ring.
  - replace (attempt <? max_retries self - 1)%nat with true
      by (symmetry; apply Nat.ltb_lt; lia).
    replace (attempt + S before_last)%nat with (S (attempt + before_last)) by lia.
    replace (S attempt + before_last)%nat with (S (attempt + before_last)) by lia.
    rewrite !backoff_S. ring.
Qed.

Lemma attempts_total_sleep (self : t) (method url : string)
    (world : nat -> Q * attempt_result) (remaining : nat) :
  0 <= rate_limit_delay self ->
  (forall i, fst (world i) <= 1 # 2) ->
  forall (kwargs_headers : gmap string string) (attempt : nat),
  (attempt + remaining = max_retries self)%nat ->
  total_sleep (snd (attempts self method url world kwargs_headers remaining attempt))
    <= sleep_bound self remaining attempt.
Proof.
  intros Hd Hjitter.
  induction remaining as [|remaining IH]; intros kwargs_headers attempt Hsum.
  - cbn [attempts snd total_sleep fold_right].
    apply sleep_bound_nonneg, Hd.
  - pose proof (Hjitter attempt) as Hj.
    pose proof (backoff_pos attempt) as Hpos.
    rewrite (sleep_bound_S self remaining attempt Hsum).
    specialize (IH (kwargs_headers ∪ headers self) (S attempt) ltac:(lia)).
    pose proof (sleep_bound_nonneg self remaining (S attempt) Hd) as Hnn.
    destruct (is_ok (snd (world attempt))) eqn:Hok.
    + destruct (world attempt) as [jitter [response| |e]] eqn:Hw;
        cbn [snd is_ok] in Hok; try discriminate.
      rewrite (attempts_ok self method url world kwargs_headers remaining attempt
                 response); [|rewrite Hw; reflexivity|lia].
      rewrite Hw. cbn [fst snd total_sleep fold_right] in *.
      destruct (attempt <? max_retries self - 1)%nat; lra.
    + destruct (attempts_S self method url world kwargs_headers remaining attempt Hok)
        as (waited & Hwaited & ->).
      cbn [snd]. rewrite !total_sleep_app.
      cbn [total_sleep fold_right].
      fold (total_sleep (snd (attempts self method url world
              (kwargs_headers ∪ headers self) remaining (S attempt)))) in *.
      assert (Hw : total_sleep waited <= backoff attempt).
      { destruct Hwaited as [-> | ->]; cbn [total_sleep fold_right]; lra. }
      assert (Hs : total_sleep (if (attempt <? max_retries self - 1)%nat
                                then [Sleep (backoff attempt)] else [])
                   == if (attempt <? max_retries self - 1)%nat
                      then backoff attempt else 0).
      { destruct (attempt <? max_retries self - 1)%nat;
          cbn [total_sleep fold_right]; ring. }
      rewrite Hs. lra.
Qed.
End BaseScraperFacts.

Lemma first_ok_or_all_fail (world : nat -> Q * BaseScraper.attempt_result) (n : nat) :
  (forall i, (i < n)%nat -> BaseScraper.is_ok (snd (world i)) = false) \/
  (exists i, (i < n)%nat /\ BaseScraper.is_ok (snd (world i)) = true /\
             forall j, (j < i)%nat -> BaseScraper.is_ok (snd (world j)) = false).
Proof.
  induction n as [|n [IH|(i & Hi & Hok & Hmin)]].
  - left. intros i Hi. lia.
  - destruct (BaseScraper.is_ok (snd (world n))) eqn:Hn.
    + right. exists n. split; [lia|]. split; [exact Hn|].
      intros j Hj. apply IH, Hj.
    + left. intros i Hi. destruct (Nat.eq_dec i n) as [->|]; [exact Hn|].
      apply IH. lia.
  - right. exists i. split; [lia|]. split; assumption.
Qed.

Lemma is_ok_Answered (r : BaseScraper.attempt_result) :
  BaseScraper.is_ok r = true ->
  exists response, r = BaseScraper.Answered response /\
                   BaseScraper.status response = 200%Z.
Proof.
  destruct r as [response| |e]; cbn; try discriminate.
  intros H. exists response. split; [reflexivity|lia].
Qed.

(** [make_request] returns the first response with status 200 among its
    [max_retries] attempts: if the attempt after [failed] unsuccessful ones
    is answered with 200, that response is returned after exactly
    [failed + 1] requests, and the session is not closed, also when the
    scraper opened it itself. *)
Theorem make_request_first_success (self : BaseScraper.t) (url method : string)
    (kwargs_headers : gmap string string)
    (world : nat -> Q * BaseScraper.attempt_result)
    (failed : nat) (response : BaseScraper.ClientResponse) :
  (failed < BaseScraper.max_retries self)%nat ->
  (forall j, (j < failed)%nat -> BaseScraper.is_ok (snd (world j)) = false) ->
  snd (world failed) = BaseScraper.Answered response ->
  BaseScraper.status response = 200%Z ->
  let r := BaseScraper.make_request self url method kwargs_headers world in
  fst r = Some response /\
  length (BaseScraper.requests (snd r)) = S failed /\
  ~ In BaseScraper.CloseSession (snd r).
Proof.
  intros Hlt Hfail Hw Hs. unfold BaseScraper.make_request.
  destruct (BaseScraperFacts.attempts_first_ok self method url world response
              failed kwargs_headers (BaseScraper.max_retries self) 0%nat)
    as (Hr & Hn & Hc);
    [exact Hlt|intros j Hj; apply Hfail; lia|exact Hw|exact Hs|].
  destruct (BaseScraper.attempts self method url world kwargs_headers
              (BaseScraper.max_retries self) 0) as [[found|] events];
    cbn [fst snd] in *; [|discriminate].
  auto.
Qed.

Lemma make_request_first_success_witness :
  let r := BaseScraper.make_request ScraperFixture.scraper "https://shop/box" "GET"
             ∅ ScraperFixture.slow_site in
  fst r = Some (BaseScraper.mkResponse 200 "<html></html>") /\
  length (BaseScraper.requests (snd r)) = 3%nat /\
  ~ In BaseScraper.CloseSession (snd r).
Proof.
  apply (make_request_first_success ScraperFixture.scraper "https://shop/box" "GET"
           ∅ ScraperFixture.slow_site 2
           (BaseScraper.mkResponse 200 "<html></html>")).
  - cbn. lia.
  - intros [|[|j]] Hj; [reflexivity|reflexivity|lia].
  - reflexivity.
  - reflexivity.
Defined.

(** [make_request] returns [None] exactly when none of its [max_retries]
    attempts is answered with status 200; it has then sent exactly
    [max_retries] requests, and it has closed the session exactly when the
    scraper was built without one. *)
Theorem make_request_gives_up (self : BaseScraper.t) (url method : string)
    (kwargs_headers : gmap string string)
    (world : nat -> Q * BaseScraper.attempt_result) :
  let r := BaseScraper.make_request self url method kwargs_headers world in
  (fst r = None <->
   forall i, (i < BaseScraper.max_retries self)%nat ->
             BaseScraper.is_ok (snd (world i)) = false) /\
  (fst r = None ->
   length (BaseScraper.requests (snd r)) = BaseScraper.max_retries self /\
   (In BaseScraper.CloseSession (snd r) <-> BaseScraper.has_session self = false)).
Proof.
  assert (Hfail :
    (forall i, (i < BaseScraper.max_retries self)%nat ->
               BaseScraper.is_ok (snd (world i)) = false) ->
    let r := BaseScraper.make_request self url method kwargs_headers world in
    fst r = None /\
    length (BaseScraper.requests (snd r)) = BaseScraper.max_retries self /\
    (In BaseScraper.CloseSession (snd r) <-> BaseScraper.has_session self = false)).
  { intros Hall. unfold BaseScraper.make_request.
    destruct (BaseScraperFacts.attempts_all_fail self method url world
                (BaseScraper.max_retries self) kwargs_headers 0%nat)
      as (Hr & Hn & Hc); [intros j Hj; apply Hall; lia|].
    destruct (BaseScraper.attempts self method url world kwargs_headers
                (BaseScraper.max_retries self) 0) as [[found|] events];
      cbn [fst snd] in *; [discriminate|].
    split; [reflexivity|]. split.
    - rewrite BaseScraperFacts.requests_app, length_app, Hn.
      destruct (BaseScraper.has_session self); cbn; lia.
    - rewrite in_app_iff.
      destruct (BaseScraper.has_session self); cbn; split;
        intuition discriminate. }
  assert (Hiff :
    fst (BaseScraper.make_request self url method kwargs_headers world) = None ->
    forall i, (i < BaseScraper.max_retries self)%nat ->
              BaseScraper.is_ok (snd (world i)) = false).
  { intros Hnone.
    destruct (first_ok_or_all_fail world (BaseScraper.max_retries self))
      as [Hall|(i & Hi & Hok & Hmin)]; [exact Hall|].
    destruct (is_ok_Answered _ Hok) as (response & Hw & Hs).
    destruct (BaseScraperFacts.attempts_first_ok self method url world response
                i kwargs_headers (BaseScraper.max_retries self) 0%nat)
      as (Hr & _);
      [exact Hi|intros j Hj; apply Hmin; lia|exact Hw|exact Hs|].
    unfold BaseScraper.make_request in Hnone.
    destruct (BaseScraper.attempts self method url world kwargs_headers
                (BaseScraper.max_retries self) 0) as [[found|] events];
      cbn [fst snd] in *; discriminate. }
  cbv zeta. split.
  - split; [exact Hiff|]. intros Hall. apply (Hfail Hall).
  - intros Hnone. apply (Hfail (Hiff Hnone)).
Qed.

Lemma make_request_gives_up_witness :
  let r := BaseScraper.make_request ScraperFixture.scraper "https://shop/box" "GET"
             ∅ ScraperFixture.busy_site in
  fst r = None /\
  length (BaseScraper.requests (snd r)) = 3%nat /\
  In BaseScraper.CloseSession (snd r).
Proof.
  pose proof (make_request_gives_up ScraperFixture.scraper "https://shop/box" "GET"
                ∅ ScraperFixture.busy_site) as [Hiff Hthen].
  assert (Hnone : fst (BaseScraper.make_request ScraperFixture.scraper
                         "https://shop/box" "GET" ∅ ScraperFixture.busy_site) = None).
  { apply Hiff. intros i _. reflexivity. }
  destruct (Hthen Hnone) as [Hn Hclose].
  split; [exact Hnone|]. split; [exact Hn|]. apply Hclose. reflexivity.
Defined.

(** Every request of [make_request] goes to the same method and URL with the
    same headers, on the first attempt and on every retry: the headers of the
    caller, completed by those of the scraper, so that a header of the caller
    overrides the scraper's header of the same name. *)
Theorem make_request_headers (self : BaseScraper.t) (url method : string)
    (kwargs_headers : gmap string string)
    (world : nat -> Q * BaseScraper.attempt_result) :
  exists sent : gmap string string,
    Forall (fun rq => rq = (method, url, sent))
      (BaseScraper.requests
         (snd (BaseScraper.make_request self url method kwargs_headers world))) /\
    forall name : string,
      sent !! name =
        match kwargs_headers !! name with
        | Some value => Some value
        | None => BaseScraper.headers self !! name
        end.
Proof.
  exists (kwargs_headers ∪ BaseScraper.headers self). split.
  - unfold BaseScraper.make_request.
    pose proof (BaseScraperFacts.attempts_requests self method url world
                  (BaseScraper.max_retries self) kwargs_headers 0%nat) as H.
    destruct (BaseScraper.attempts self method url world kwargs_headers
                (BaseScraper.max_retries self) 0) as [[found|] events];
      cbn [fst snd] in *; [exact H|].
    rewrite BaseScraperFacts.requests_app, Forall_app. split; [exact H|].
    destruct (BaseScraper.has_session self); cbn; constructor.
  - intros name. rewrite lookup_union.
    destruct (kwargs_headers !! name), (BaseScraper.headers self !! name);
      reflexivity.
Qed.

(** A scraper as [BaseScraper.__init__] builds it, with a delay that is not
    negative, sleeps at most three delays and 11.5 seconds in one
    [make_request], whatever the site answers: three rate-limit pauses of at
    most the delay and half a second, the waits 1, 2 and 4 after a 429, and
    the pauses 1 and 2 between the attempts. *)
Theorem make_request_total_sleep (SCRAPING_DELAY_MS : Z) (USER_AGENT : string)
    (has_session : bool) (url method : string)
    (kwargs_headers : gmap string string)
    (world : nat -> Q * BaseScraper.attempt_result) :
  (0 <= SCRAPING_DELAY_MS)%Z ->
  (forall i, fst (world i) <= 1 # 2) ->
  BaseScraper.total_sleep
    (snd (BaseScraper.make_request
            (BaseScraper.init SCRAPING_DELAY_MS USER_AGENT has_session)
            url method kwargs_headers world))
  <= 3 * (inject_Z SCRAPING_DELAY_MS / 1000) + (23 # 2).
Proof.
  intros Hms Hjitter.
  set (self := BaseScraper.init SCRAPING_DELAY_MS USER_AGENT has_session).
  assert (Hd : 0 <= BaseScraper.rate_limit_delay self).
  { cbn. unfold Qdiv. change (/ 1000) with (1 # 1000).
    assert (0 <= inject_Z SCRAPING_DELAY_MS)
      by (change 0 with (inject_Z 0); rewrite <- Zle_Qle; exact Hms).
    lra. }
  pose proof (BaseScraperFacts.attempts_total_sleep self method url world 3
                Hd Hjitter kwargs_headers 0%nat eq_refl) as H.
  assert (Hb : BaseScraper.sleep_bound self 3 0
               <= 3 * (inject_Z SCRAPING_DELAY_MS / 1000) + (23 # 2)).
  { unfold BaseScraper.sleep_bound.
    change (BaseScraper.rate_limit_delay self)
      with (inject_Z SCRAPING_DELAY_MS / 1000).
    change (BaseScraper.backoff (0 + 3)) with 8.
    change (BaseScraper.backoff (0 + 2)) with 4.
    change (BaseScraper.backoff 0) with 1.
    change (inject_Z (Z.of_nat 3)) with 3.
    lra. }
  unfold BaseScraper.make_request.
  change (BaseScraper.max_retries self) with 3%nat.
  destruct (BaseScraper.attempts self method url world kwargs_headers 3 0)
    as [[found|] events]; cbn [fst snd] in *.
  - eapply Qle_trans; [exact H|exact Hb].
  - rewrite BaseScraperFacts.total_sleep_app.
    assert (Hc : BaseScraper.total_sleep
                   (if BaseScraper.has_session self
                    then [] else [BaseScraper.CloseSession]) == 0)
      by (destruct (BaseScraper.has_session self); reflexivity).
    rewrite Hc. lra.
Qed.

Lemma make_request_total_sleep_witness :
  BaseScraper.total_sleep
    (snd (BaseScraper.make_request ScraperFixture.scraper "https://shop/box" "GET"
            ∅ ScraperFixture.busy_site))
  <= 3 * (inject_Z 2000 / 1000) + (23 # 2).
Proof.
  apply (make_request_total_sleep 2000 "arbitrage-bot" false "https://shop/box"
           "GET" ∅ ScraperFixture.busy_site).
  - lia.
  - intros i. cbn. lra.
Defined.
